(** * Bounding-box labelling of rendered frames (blender_render_labeling.py)

    A shallow embedding of the geometric core of the script: the [Box]
    class, [clamp], [camera_view_bounds_2d], [write_bounds_2d],
    [normalize] and the label-writing loop of [main].

    Modelling conventions.
    - Python floats are idealised as rationals ([Q]); equality of numbers is
      therefore [Qeq] ([==]) and the source's comparisons ([==], [<=], [<],
      membership in a tuple of constants) are the boolean tests on [Q].
      Blender's vectors hold single-precision components and [v / s] casts
      [s] to single precision: rounding, overflow and underflow of that
      arithmetic are outside the model, so no general statement below
      asserts that the rescaled frame of the perspective branch yields a
      value.
    - Python exceptions are explicit: every operation that can raise returns
      a [result]; division raises [ZeroDivisionError] on a zero divisor,
      [min]/[max] of an empty list raise [ValueError], and calling a method
      on [None] raises [AttributeError].
    - The Blender scene graph is outside the script.  A mesh is the list of
      its vertices after the two [me.transform] calls (camera-local
      coordinates), a camera is its projection type and its four view-frame
      corners, and the render settings are the three integers read from
      [scene.render]. *)

From Stdlib Require Import QArith Lqa ZArith Lia List Bool String Ascii.
From Stdlib Require Import Decimal DecimalString DecimalPos DecimalZ.
Import ListNotations.

Local Open Scope Q_scope.

(** ** Exceptions *)

Inductive exn : Type :=
| ZeroDivisionError
| ValueError
| AttributeError.

Inductive result (A : Type) : Type :=
| Ok (a : A)
| Raise (e : exn).

Arguments Ok {A} a.
Arguments Raise {A} e.

Definition bind {A B : Type} (m : result A) (k : A -> result B) : result B :=
  match m with
  | Ok a => k a
  | Raise e => Raise e
  end.

Notation "x <- m ;; k" := (bind m (fun x => k))
  (at level 61, m at next level, right associativity).
Notation "' p <- m ;; k" := (bind m (fun x => let p := x in k))
  (at level 61, p pattern, m at next level, right associativity).

(** ** Numbers *)

Definition Qltb (a b : Q) : bool := negb (Qle_bool b a).

(** Python's [a / b] on floats. *)
Definition qdiv (a b : Q) : result Q :=
  if Qeq_bool b 0 then Raise ZeroDivisionError else Ok (a / b).

(** Python's two-argument [min(a, b)] and [max(a, b)]: the first argument is
    kept unless the second is strictly smaller (resp. larger). *)
Definition py_min2 (a b : Q) : Q := if Qltb b a then b else a.
Definition py_max2 (a b : Q) : Q := if Qltb a b then b else a.

(** Python's [min(l)] and [max(l)] on a list: a left-to-right scan. *)
Definition py_min (l : list Q) : result Q :=
  match l with
  | [] => Raise ValueError
  | x :: xs => Ok (fold_left py_min2 xs x)
  end.

Definition py_max (l : list Q) : result Q :=
  match l with
  | [] => Raise ValueError
  | x :: xs => Ok (fold_left py_max2 xs x)
  end.

(** [def clamp(x, minimum, maximum): return max(minimum, min(x, maximum))] *)
Definition clamp (x minimum maximum : Q) : Q :=
  py_max2 minimum (py_min2 x maximum).

(** ** The Box class *)

Definition tuple4 : Type := (Q * Q * Q * Q)%type.

Definition tuple4_eq (s t : tuple4) : Prop :=
  let '(a, b, c, d) := s in
  let '(a', b', c', d') := t in
  a == a' /\ b == b' /\ c == c' /\ d == d'.

Module Box.

Record t : Type := mk {
  min_x : Q;
  min_y : Q;
  max_x : Q;
  max_y : Q;
  dim_x : Q;
  dim_y : Q
}.

Definition x (self : t) : Q := min_x self * dim_x self.

Definition y (self : t) : Q := dim_y self - max_y self * dim_y self.

Definition width (self : t) : Q := (max_x self - min_x self) * dim_x self.

Definition height (self : t) : Q := (max_y self - min_y self) * dim_y self.

Definition to_tuple (self : t) : tuple4 :=
  if Qeq_bool (width self) 0 || Qeq_bool (height self) 0
  then (0, 0, 0, 0)
  else (x self, y self, width self, height self).

End Box.

(** ** Camera, mesh and render settings *)

Record Vector : Type := mkVector { vx : Q; vy : Q; vz : Q }.

Definition vec_neg (v : Vector) : Vector :=
  mkVector (- vx v) (- vy v) (- vz v).

(** [v / s] for a vector and a scalar, in exact arithmetic (see the
    conventions above: the single-precision cast of [s] is not modelled). *)
Definition vec_div (v : Vector) (s : Q) : result Vector :=
  if Qeq_bool s 0 then Raise ZeroDivisionError
  else Ok (mkVector (vx v / s) (vy v / s) (vz v / s)).

Record Camera : Type := mkCamera {
  cam_ortho : bool;                         (* camera.type == 'ORTHO' *)
  view_frame : Vector * Vector * Vector * Vector
}.

Definition Mesh : Type := list Vector.

Record Render : Type := mkRender {
  resolution_x : Z;
  resolution_y : Z;
  resolution_percentage : Z
}.

(** The three-element list [frame] of the source. *)
Definition Frame : Type := (Vector * Vector * Vector)%type.

Definition frame0 (f : Frame) : Vector := fst (fst f).
Definition frame1 (f : Frame) : Vector := snd (fst f).
Definition frame2 (f : Frame) : Vector := snd f.

(** [frame = [-v for v in camera.view_frame(scene=scene)[:3]]] *)
Definition initial_frame (camera : Camera) : Frame :=
  let '(a, b, c, _) := view_frame camera in
  (vec_neg a, vec_neg b, vec_neg c).

(** [frame = [(v / (v.z / z)) for v in frame]] *)
Definition rescale_corner (z : Q) (v : Vector) : result Vector :=
  s <- qdiv (vz v) z ;;
  vec_div v s.

Definition rescale_frame (z : Q) (f : Frame) : result Frame :=
  a <- rescale_corner z (frame0 f) ;;
  b <- rescale_corner z (frame1 f) ;;
  c <- rescale_corner z (frame2 f) ;;
  Ok (a, b, c).

(** ** Bounds extraction (the tail of the loop body, from [center_x] to the
    [if bad_bbox ... else ...]) *)

(** [c in (0., 1.)] *)
Definition in_0_1 (c : Q) : bool := Qeq_bool c 0 || Qeq_bool c 1.

(** [center_x in (0., 1.) and center_y in (0., 1.)] *)
Definition rule_a (center_x center_y : Q) : bool :=
  in_0_1 center_x && in_0_1 center_y.

(** [min(l) <= 0 and max(l) >= 1] *)
Definition straddles (mn mx : Q) : bool :=
  Qle_bool mn 0 && Qle_bool 1 mx.

Definition bad_bbox (center_x center_y mn_x mx_x mn_y mx_y : Q) : bool :=
  let bad := false in
  let bad := if rule_a center_x center_y then true else bad in
  let bad := if straddles mn_x mx_x then true else bad in
  let bad := if straddles mn_y mx_y then true else bad in
  bad.

(** Returns [(min_x, min_y, max_x, max_y)] as passed to the [Box]
    constructor. *)
Definition bounds_2d (lx ly : list Q) : result tuple4 :=
  mx_x <- py_max lx ;;
  mn_x <- py_min lx ;;
  mx_y <- py_max ly ;;
  mn_y <- py_min ly ;;
  let center_x := clamp ((mx_x + mn_x) / 2) 0 1 in
  let center_y := clamp ((mx_y + mn_y) / 2) 0 1 in
  if bad_bbox center_x center_y mn_x mx_x mn_y mx_y
  then Ok (0, 0, 0, 0)
  else Ok (clamp mn_x 0 1, clamp mn_y 0 1, clamp mx_x 0 1, clamp mx_y 0 1).

(** ** camera_view_bounds_2d *)

(** A [for] loop whose body may [return]: the body either hands the updated
    loop state to the next iteration or leaves the function with a value.
    Falling off the end of the loop (and of the function) gives [None]. *)
Inductive ctl (S A : Type) : Type :=
| Next (s : S)
| Return (a : A).

Arguments Next {S A} s.
Arguments Return {S A} a.

Fixpoint for_each {S V A : Type} (body : S -> V -> result (ctl S A))
    (s : S) (vs : list V) : result (option A) :=
  match vs with
  | [] => Ok None
  | v :: vs' =>
      r <- body s v ;;
      match r with
      | Return a => Ok (Some a)
      | Next s' => for_each body s' vs'
      end
  end.

Definition loop_state : Type := (Frame * list Q * list Q)%type.

Definition render_dims (scene : Render) : Q * Q :=
  let fac := inject_Z (resolution_percentage scene) * (1 # 100) in
  (inject_Z (resolution_x scene) * fac, inject_Z (resolution_y scene) * fac).

(** The perspective branch at the head of the loop body. *)
Definition persp_step (camera_persp : bool) (z : Q) (st : loop_state)
  : result loop_state :=
  let '(frame, lx, ly) := st in
  if camera_persp then
    if Qeq_bool z 0 then Ok (frame, lx ++ [1 # 2], ly ++ [1 # 2])
    else frame' <- rescale_frame z frame ;; Ok (frame', lx, ly)
  else Ok st.

(** The body of [for v in me.vertices:].  In the source everything down to
    [return Box(...)] is indented under the [for], so the body ends with the
    [return]. *)
Definition loop_body (scene : Render) (camera_persp : bool)
    (st : loop_state) (v : Vector) : result (ctl loop_state Box.t) :=
  let co_local := v in
  let z := - vz co_local in
  '(frame, lx, ly) <- persp_step camera_persp z st ;;
  let min_x := vx (frame1 frame) in
  let max_x := vx (frame2 frame) in
  let min_y := vy (frame0 frame) in
  let max_y := vy (frame1 frame) in
  x <- qdiv (vx co_local - min_x) (max_x - min_x) ;;
  y <- qdiv (vy co_local - min_y) (max_y - min_y) ;;
  let lx := lx ++ [x] in
  let ly := ly ++ [y] in
  '(min_x, min_y, max_x, max_y) <- bounds_2d lx ly ;;
  let '(dim_x, dim_y) := render_dims scene in
  Ok (Return (Box.mk min_x min_y max_x max_y dim_x dim_y)).

Definition camera_view_bounds_2d (scene : Render) (cam_ob : Camera)
    (me : Mesh) : result (option Box.t) :=
  let frame := initial_frame cam_ob in
  let camera_persp := negb (cam_ortho cam_ob) in
  for_each (loop_body scene camera_persp) (frame, [], []) me.

(** ** write_bounds_2d *)

(** [np.count_nonzero(np.array(box))] *)
Definition count_nonzero (box : tuple4) : nat :=
  let '(a, b, c, d) := box in
  let nz (q : Q) : nat := if Qeq_bool q 0 then 0%nat else 1%nat in
  (nz a + nz b + nz c + nz d)%nat.

(** [bpy.context.scene.frame_set(cur_frame)] moves the scene to the frame;
    here the mesh argument already holds the vertices at that frame. *)
Definition write_bounds_2d (scene : Render) (cam_ob : Camera) (me_ob : Mesh)
  : result (option tuple4) :=
  b <- camera_view_bounds_2d scene cam_ob me_ob ;;
  match b with
  | None => Raise AttributeError            (* None.to_tuple() *)
  | Some b =>
      let box := Box.to_tuple b in
      if negb (Nat.eqb (count_nonzero box) 0) then Ok (Some box) else Ok None
  end.

(** ** normalize *)

Definition normalize (data : tuple4) (frame_width frame_height : Q)
  : result tuple4 :=
  let '(d0, d1, d2, d3) := data in
  x_center <- qdiv (d0 + d2 / 2) frame_width ;;
  y_center <- qdiv (d1 + d3 / 2) frame_height ;;
  width <- qdiv d2 frame_width ;;
  height <- qdiv d3 frame_height ;;
  Ok (x_center, y_center, width, height).

(** De-normalisation as the specification words it (there is no such
    function in the script): multiply every component back by the frame
    dimension and re-derive the top-left corner from the centre. *)
Definition denormalize_spec (label : tuple4) (frame_width frame_height : Q)
  : tuple4 :=
  let '(x_center, y_center, w, h) := label in
  let width := w * frame_width in
  let height := h * frame_height in
  (x_center * frame_width - width / 2,
   y_center * frame_height - height / 2,
   width, height).

(** ** The label loop of main *)

Local Open Scope string_scope.

(** [str(n)] for an integer. *)
Definition str_int (n : Z) : string := NilZero.string_of_int (Z.to_int n).

Fixpoint zeros (n : nat) : string :=
  match n with
  | O => EmptyString
  | S n' => String "0" (zeros n')
  end.

(** [s.zfill(width)]: pad with zeros on the left up to [width]; a leading
    sign stays in front of the padding. *)
Definition zfill (width : nat) (s : string) : string :=
  let fill := zeros (width - String.length s) in
  match s with
  | String c rest =>
      if Ascii.eqb c "+" || Ascii.eqb c "-" then String c (fill ++ rest)
      else fill ++ s
  | EmptyString => fill
  end.

(** The base name of [label_filepath]. *)
Definition label_filename (frame_current : Z) : string :=
  "frame_" ++ zfill 4 (str_int frame_current) ++ ".txt".

(** [range(a, b)] *)
Definition py_range (a b : Z) : list Z :=
  map (fun i => (a + Z.of_nat i)%Z) (seq 0 (Z.to_nat (b - a))).

Definition newline : string := String (ascii_of_nat 10) EmptyString.

(** What the loop reads from Blender: the render settings, the camera, and
    for every frame the labelled objects' meshes (in the order of
    [labeled_objects_names]) in camera-local coordinates. *)
Record Scene : Type := mkScene {
  render : Render;
  camera : Camera;
  meshes_at : Z -> list Mesh
}.

Section Labels.

(** How an f-string prints a float. *)
Variable float_str : Q -> string.

(** [f"0 {x_center} {y_center} {width} {height}\n"] *)
Definition label_line (label : tuple4) : string :=
  let '(x_center, y_center, width, height) := label in
  "0 " ++ float_str x_center ++ " " ++ float_str y_center ++ " "
       ++ float_str width ++ " " ++ float_str height ++ newline.

(** One iteration of [for label in labeled_objects_names].  [if data:] holds
    for a 4-tuple and fails for [None]. *)
Definition label_object (scene : Scene) (all_data : string) (me_ob : Mesh)
  : result string :=
  let frame_width := inject_Z (resolution_x (render scene)) in
  let frame_height := inject_Z (resolution_y (render scene)) in
  data <- write_bounds_2d (render scene) (camera scene) me_ob ;;
  match data with
  | Some data =>
      label <- normalize data frame_width frame_height ;;
      Ok (all_data ++ label_line label)
  | None => Ok all_data
  end.

Fixpoint label_objects (scene : Scene) (all_data : string)
    (objs : list Mesh) : result string :=
  match objs with
  | [] => Ok all_data
  | me_ob :: rest =>
      all_data' <- label_object scene all_data me_ob ;;
      label_objects scene all_data' rest
  end.

(** The body of [for frame_current in range(frame_start, frame_end)]: the
    file name and the text written to it. *)
Definition label_frame (scene : Scene) (frame_current : Z)
  : result (string * string) :=
  all_data <- label_objects scene "" (meshes_at scene frame_current) ;;
  Ok (label_filename frame_current, all_data).

(** The files of the run, in the order they are written.  An exception ends
    the run. *)
Fixpoint label_frames (scene : Scene) (frames : list Z)
  : result (list (string * string)) :=
  match frames with
  | [] => Ok []
  | frame_current :: rest =>
      file <- label_frame scene frame_current ;;
      files <- label_frames scene rest ;;
      Ok (file :: files)
  end.

Definition main_labels (scene : Scene) (frame_start frame_end : Z)
  : result (list (string * string)) :=
  label_frames scene (py_range frame_start frame_end).

End Labels.

Local Close Scope string_scope.

(** ** Vocabulary for the statements about the label files *)

(** The text of a sequence of labels, one line each. *)
Definition label_lines (float_str : Q -> string) (labels : list tuple4)
  : string :=
  fold_right (fun l acc => (label_line float_str l ++ acc)%string)
             EmptyString labels.

(** [label] is what the loop of [main] computes for the object [me_ob] when
    the object is not skipped. *)
Definition emitted_label (scene : Scene) (me_ob : Mesh) (label : tuple4)
  : Prop :=
  exists b,
    camera_view_bounds_2d (render scene) (camera scene) me_ob = Ok (Some b) /\
    ~ tuple4_eq (Box.to_tuple b) (0, 0, 0, 0) /\
    normalize (Box.to_tuple b)
              (inject_Z (resolution_x (render scene)))
              (inject_Z (resolution_y (render scene))) = Ok label.

Definition in_unit_range (label : tuple4) : Prop :=
  let '(x_center, y_center, width, height) := label in
  0 <= x_center <= 1 /\ 0 <= y_center <= 1 /\
  0 <= width <= 1 /\ 0 <= height <= 1.

(** The padded frame index has four characters and reads back as the
    frame number. *)
Definition four_digit_index (n : Z) : bool :=
  let s := zfill 4 (str_int n) in
  Nat.eqb (String.length s) 4 &&
  match NilZero.int_of_string s with
  | Some i => Z.eqb (Z.of_int i) n
  | None => false
  end.

(** ** Concrete inputs used in the examples below *)

(** A view frame of unit width and height at depth 1, in Blender's corner
    order (top-right, bottom-right, bottom-left, top-left). *)
Definition unit_view_frame : Vector * Vector * Vector * Vector :=
  (mkVector (1 # 2) (1 # 2) (- 1),
   mkVector (1 # 2) (- (1 # 2)) (- 1),
   mkVector (- (1 # 2)) (- (1 # 2)) (- 1),
   mkVector (- (1 # 2)) (1 # 2) (- 1)).

Definition ortho_camera : Camera := mkCamera true unit_view_frame.
Definition persp_camera : Camera := mkCamera false unit_view_frame.

Definition render_640_480 (percentage : Z) : Render :=
  mkRender 640 480 percentage.

(** A vertex that lies in the camera's plane (local depth 0). *)
Definition zero_depth_vertex : Vector := mkVector (1 # 4) (1 # 4) 0.

(** Two vertices in front of the camera, the second further up and right. *)
Definition two_vertex_mesh : Mesh :=
  [mkVector 0 0 (- 1); mkVector (1 # 4) (1 # 4) (- 1)].

(** A vertex left of and above the frame. *)
Definition off_corner_vertex : Vector := mkVector (- (3 # 2)) (3 # 2) (- 1).

(** One labelled object, the same mesh at every frame, rendered at the
    given resolution percentage with the perspective camera. *)
Definition one_object_scene (percentage : Z) (me : Mesh) : Scene :=
  mkScene (render_640_480 percentage) persp_camera (fun _ => [me]).

(** ** The camera path offset of main *)

(** [relative_target_follow_offset = min(relative_target_follow_offset, 0.999)]
    followed by [max(relative_target_follow_offset, 0.001)].  The argument
    is the value of [target_offset_meters / path_length]. *)
Definition relative_target_follow_offset (offset : Q) : Q :=
  let offset := py_min2 offset (999 # 1000) in
  py_max2 offset (1 # 1000).

(** ** Vocabulary for the statements about the projection *)

(** The horizontal and vertical extent of the frame as the loop body reads
    them off the corners. *)
Definition frame_width (f : Frame) : Q := vx (frame2 f) - vx (frame1 f).
Definition frame_height (f : Frame) : Q := vy (frame1 f) - vy (frame0 f).

(** The three corners lie at the same depth. *)
Definition planar_frame (f : Frame) : Prop :=
  vz (frame0 f) == vz (frame1 f) /\ vz (frame2 f) == vz (frame1 f).

(** One labelled object seen by the orthographic camera. *)
Definition ortho_scene (me : Mesh) : Scene :=
  mkScene (render_640_480 100) ortho_camera (fun _ => [me]).

(** The Box of the zero-depth vertex under the perspective camera, at
    640x480 and 100 percent. *)
Definition zero_depth_box : Box.t :=
  Box.mk (1 # 2) (1 # 2) (24 # 32) (24 # 32) (64000 # 100) (48000 # 100).

(** Reading a decimal integer back from its text, as [int(s)] does for the
    output of [str] and [zfill]. *)
Definition parse_int (s : string) : option Z :=
  option_map Z.of_int (NilZero.int_of_string s).

(** ** Vocabulary for the statements about clamping and label texts *)

(** [a] is [x] clamped to [0,1], said without the code's [clamp]. *)
Definition clamped_to_unit (x a : Q) : Prop :=
  (x <= 0 -> a == 0) /\ (0 <= x <= 1 -> a == x) /\ (1 <= x -> a == 1).


(** The labels of the objects that were not skipped, in object order. *)
Definition kept_labels (choices : list (option tuple4)) : list tuple4 :=
  flat_map (fun c => match c with Some l => [l] | None => [] end) choices.

(** * Properties *)

(** ** Booleans on rationals *)

Lemma Qltb_true (a b : Q) : Qltb a b = true <-> a < b.
Proof.
  unfold Qltb. rewrite negb_true_iff. split.
  - intros H. apply Qnot_le_lt. intros Hle.
    apply Qle_bool_iff in Hle. congruence.
  - intros H. destruct (Qle_bool b a) eqn:E; [|reflexivity].
    apply Qle_bool_iff in E. lra.
Qed.

Lemma Qltb_false (a b : Q) : Qltb a b = false <-> b <= a.
Proof.
  unfold Qltb. rewrite negb_false_iff. apply Qle_bool_iff.
Qed.

Lemma Qle_bool_false (a b : Q) : Qle_bool a b = false <-> b < a.
Proof.
  split.
  - intros H. apply Qnot_le_lt. intros Hle.
    apply Qle_bool_iff in Hle. congruence.
  - intros H. destruct (Qle_bool a b) eqn:E; [|reflexivity].
    apply Qle_bool_iff in E. lra.
Qed.

Lemma Qeq_bool_false (a b : Q) : Qeq_bool a b = false <-> ~ a == b.
Proof.
  split.
  - apply Qeq_bool_neq.
  - intros H. destruct (Qeq_bool a b) eqn:E; [|reflexivity].
    apply Qeq_bool_iff in E. contradiction.
Qed.

(** Turn every boolean comparison in the context into its proposition. *)
Ltac qprop :=
  repeat match goal with
  | H : Qltb _ _ = true |- _ => apply Qltb_true in H
  | H : Qltb _ _ = false |- _ => apply Qltb_false in H
  | H : Qle_bool _ _ = true |- _ => apply Qle_bool_iff in H
  | H : Qle_bool _ _ = false |- _ => apply Qle_bool_false in H
  | H : Qeq_bool _ _ = true |- _ => apply Qeq_bool_iff in H
  | H : Qeq_bool _ _ = false |- _ => apply Qeq_bool_false in H
  end.

(** Case split on the first comparison found in the goal. *)
Ltac qcase :=
  match goal with
  | |- context [Qltb ?a ?b] => destruct (Qltb a b) eqn:?
  | |- context [Qle_bool ?a ?b] => destruct (Qle_bool a b) eqn:?
  | |- context [Qeq_bool ?a ?b] => destruct (Qeq_bool a b) eqn:?
  end.

Lemma py_min2_spec (a b : Q) :
  py_min2 a b <= a /\ py_min2 a b <= b /\ (py_min2 a b = a \/ py_min2 a b = b).
Proof.
  unfold py_min2. qcase; qprop; repeat split; auto; lra.
Qed.

Lemma py_max2_spec (a b : Q) :
  a <= py_max2 a b /\ b <= py_max2 a b /\ (py_max2 a b = a \/ py_max2 a b = b).
Proof.
  unfold py_max2. qcase; qprop; repeat split; auto; lra.
Qed.

(** [clamp x 0 1]: decide the inner [min] first, then the outer [max]. *)
Ltac clamp_cases :=
  unfold clamp;
  repeat (unfold py_min2; qcase);
  repeat (unfold py_max2; qcase);
  qprop; lra.

Lemma clamp_range (x : Q) : 0 <= clamp x 0 1 <= 1.
Proof.
  clamp_cases.
Qed.

Lemma clamp_inside (x : Q) : 0 <= x <= 1 -> clamp x 0 1 == x.
Proof.
  intros H. clamp_cases.
Qed.

Lemma clamp_below (x : Q) : x <= 0 -> clamp x 0 1 == 0.
Proof.
  intros H. clamp_cases.
Qed.

Lemma clamp_above (x : Q) : 1 <= x -> clamp x 0 1 == 1.
Proof.
  intros H. clamp_cases.
Qed.

Lemma clamp_monotone (x y : Q) : x <= y -> clamp x 0 1 <= clamp y 0 1.
Proof.
  intros H. clamp_cases.
Qed.

(** ** The Box class *)

Lemma to_tuple_zero_iff (b : Box.t) :
  Box.to_tuple b = (0, 0, 0, 0) <-> (Box.width b == 0 \/ Box.height b == 0).
Proof.
  unfold Box.to_tuple.
  destruct (Qeq_bool (Box.width b) 0) eqn:Ew;
    destruct (Qeq_bool (Box.height b) 0) eqn:Eh; simpl; qprop;
    try (split; [intros _; auto | reflexivity]).
  split.
  - intros H. assert (Hw : Box.width b = 0) by congruence.
    left. rewrite Hw. reflexivity.
  - intros [H | H]; contradiction.
Qed.

(** C4.  The pixel properties of a Box are x = min_x*dim_x,
    y = dim_y - max_y*dim_y, width = (max_x-min_x)*dim_x and
    height = (max_y-min_y)*dim_y; to_tuple() is the all-zero tuple when the
    pixel width or the pixel height is zero and (x, y, width, height)
    otherwise. *)
Theorem Box_properties_and_to_tuple :
  forall min_x min_y max_x max_y dim_x dim_y : Q,
    let b := Box.mk min_x min_y max_x max_y dim_x dim_y in
    Box.x b = min_x * dim_x /\
    Box.y b = dim_y - max_y * dim_y /\
    Box.width b = (max_x - min_x) * dim_x /\
    Box.height b = (max_y - min_y) * dim_y /\
    (Box.width b == 0 \/ Box.height b == 0 ->
     Box.to_tuple b = (0, 0, 0, 0)) /\
    (~ Box.width b == 0 -> ~ Box.height b == 0 ->
     Box.to_tuple b = (Box.x b, Box.y b, Box.width b, Box.height b)).
Proof.
  intros min_x min_y max_x max_y dim_x dim_y b.
  repeat split.
  - apply to_tuple_zero_iff.
  - intros Hw Hh. unfold Box.to_tuple.
    apply Qeq_bool_false in Hw, Hh. rewrite Hw, Hh. reflexivity.
Qed.

Example to_tuple_regular_box :
  tuple4_eq (Box.to_tuple (Box.mk (1 # 4) (1 # 4) (1 # 2) (3 # 4) 640 480))
            (160, 120, 160, 240).
Proof. vm_compute. repeat split. Qed.

Example to_tuple_flat_box :
  Box.to_tuple (Box.mk (1 # 4) (1 # 2) (3 # 4) (1 # 2) 640 480) = (0, 0, 0, 0).
Proof. reflexivity. Qed.

(** C10.  A Box whose four bounds are zero, at a positive resolution, has
    x = 0, width = 0, height = 0 and y = dim_y (which is not 0); its
    to_tuple() is nevertheless the all-zero tuple. *)
Theorem zero_bounds_box_hides_raster_y :
  forall b : Box.t,
    Box.min_x b == 0 -> Box.min_y b == 0 ->
    Box.max_x b == 0 -> Box.max_y b == 0 ->
    0 < Box.dim_x b -> 0 < Box.dim_y b ->
    Box.x b == 0 /\ Box.width b == 0 /\ Box.height b == 0 /\
    Box.y b == Box.dim_y b /\ ~ Box.y b == 0 /\
    Box.to_tuple b = (0, 0, 0, 0).
Proof.
  intros b Hx0 Hy0 Hx1 Hy1 Hdx Hdy.
  assert (Hw : Box.width b == 0).
  { unfold Box.width. rewrite Hx0, Hx1. ring. }
  assert (Hy : Box.y b == Box.dim_y b).
  { unfold Box.y. rewrite Hy1. ring. }
  repeat split.
  - unfold Box.x. rewrite Hx0. ring.
  - exact Hw.
  - unfold Box.height. rewrite Hy0, Hy1. ring.
  - exact Hy.
  - rewrite Hy. lra.
  - apply to_tuple_zero_iff. left. exact Hw.
Qed.

Lemma zero_bounds_box_hides_raster_y_witness :
  let b := Box.mk 0 0 0 0 640 480 in
  Box.x b == 0 /\ Box.width b == 0 /\ Box.height b == 0 /\
  Box.y b == Box.dim_y b /\ ~ Box.y b == 0 /\
  Box.to_tuple b = (0, 0, 0, 0).
Proof.
  apply (zero_bounds_box_hides_raster_y (Box.mk 0 0 0 0 640 480));
    simpl; first [reflexivity | lra].
Defined.

(** ** normalize *)

Lemma qdiv_ok (a b : Q) : ~ b == 0 -> qdiv a b = Ok (a / b).
Proof.
  intros H. unfold qdiv. apply Qeq_bool_false in H. rewrite H. reflexivity.
Qed.

Lemma qdiv_zero (a b : Q) : b == 0 -> qdiv a b = Raise ZeroDivisionError.
Proof.
  intros H. unfold qdiv. apply Qeq_bool_iff in H. rewrite H. reflexivity.
Qed.

Lemma normalize_ok (x y w h fw fh : Q) :
  ~ fw == 0 -> ~ fh == 0 ->
  normalize (x, y, w, h) fw fh =
  Ok ((x + w / 2) / fw, (y + h / 2) / fh, w / fw, h / fh).
Proof.
  intros Hw Hh. apply Qeq_bool_false in Hw, Hh.
  unfold normalize, qdiv, bind. rewrite Hw, Hh. reflexivity.
Qed.

(** C5.  For positive frame dimensions normalize returns exactly
    ((x + width/2)/frame_width, (y + height/2)/frame_height,
    width/frame_width, height/frame_height), unclamped; on the pixel box
    (100, 50, 40, 20) and a 640x480 frame this is x_center = 0.1875,
    y_center = 0.125, width = 0.0625 and height = 20/480 = 1/24, which is
    0.0417 to the four decimals the scenario prints. *)
Theorem normalize_formula_and_scenario :
  (forall x y w h fw fh : Q,
      0 < fw -> 0 < fh ->
      normalize (x, y, w, h) fw fh =
      Ok ((x + w / 2) / fw, (y + h / 2) / fh, w / fw, h / fh)) /\
  (exists label,
      normalize (100, 50, 40, 20) 640 480 = Ok label /\
      tuple4_eq label (1875 # 10000, 125 # 1000, 625 # 10000, 1 # 24)) /\
  (417 # 10000) - (1 # 20000) <= 1 # 24 < (417 # 10000) + (1 # 20000).
Proof.
  split; [|split].
  - intros x y w h fw fh Hw Hh. apply normalize_ok; lra.
  - eexists. split; [reflexivity|]. vm_compute. repeat split.
  - lra.
Qed.

Lemma normalize_formula_and_scenario_witness :
  normalize (600, 0, 100, 10) 640 480 =
  Ok ((600 + 100 / 2) / 640, (0 + 10 / 2) / 480, 100 / 640, 10 / 480) /\
  1 < (600 + 100 / 2) / 640.
Proof.
  split.
  - apply (proj1 normalize_formula_and_scenario); reflexivity.
  - reflexivity.
Defined.

(** C6.  For a pixel box of positive width and height and positive frame
    dimensions, de-normalising the result of normalize gives the pixel box
    back, exactly over the rationals. *)
Theorem normalize_denormalize_roundtrip :
  forall x y w h fw fh : Q,
    0 < w -> 0 < h -> 0 < fw -> 0 < fh ->
    exists label,
      normalize (x, y, w, h) fw fh = Ok label /\
      tuple4_eq (denormalize_spec label fw fh) (x, y, w, h).
Proof.
  intros x y w h fw fh _ _ Hfw Hfh.
  eexists. split.
  - apply normalize_ok; lra.
  - simpl. repeat split; field; lra.
Qed.

Lemma normalize_denormalize_roundtrip_witness :
  exists label,
    normalize (100, 50, 40, 20) 640 480 = Ok label /\
    tuple4_eq (denormalize_spec label 640 480) (100, 50, 40, 20).
Proof.
  apply (normalize_denormalize_roundtrip 100 50 40 20 640 480); reflexivity.
Defined.

(** ** min and max of a list *)

Lemma fold_py_min2_spec (xs : list Q) : forall a : Q,
  let m := fold_left py_min2 xs a in
  In m (a :: xs) /\ forall e, In e (a :: xs) -> m <= e.
Proof.
  induction xs as [|x xs IH]; intros a; simpl.
  - split; [auto|]. intros e [<- | []]. lra.
  - destruct (IH (py_min2 a x)) as [Hin Hle].
    destruct (py_min2_spec a x) as (Ha & Hx & Hsel).
    split.
    + destruct Hin as [Hin | Hin]; [|auto].
      rewrite <- Hin. destruct Hsel as [-> | ->]; auto.
    + intros e [<- | [<- | He]].
      * apply Qle_trans with (py_min2 a x); [apply Hle; left; reflexivity | exact Ha].
      * apply Qle_trans with (py_min2 a x); [apply Hle; left; reflexivity | exact Hx].
      * apply Hle. right. exact He.
Qed.

Lemma fold_py_max2_spec (xs : list Q) : forall a : Q,
  let m := fold_left py_max2 xs a in
  In m (a :: xs) /\ forall e, In e (a :: xs) -> e <= m.
Proof.
  induction xs as [|x xs IH]; intros a; simpl.
  - split; [auto|]. intros e [<- | []]. lra.
  - destruct (IH (py_max2 a x)) as [Hin Hle].
    destruct (py_max2_spec a x) as (Ha & Hx & Hsel).
    split.
    + destruct Hin as [Hin | Hin]; [|auto].
      rewrite <- Hin. destruct Hsel as [-> | ->]; auto.
    + intros e [<- | [<- | He]].
      * apply Qle_trans with (py_max2 a x); [exact Ha | apply Hle; left; reflexivity].
      * apply Qle_trans with (py_max2 a x); [exact Hx | apply Hle; left; reflexivity].
      * apply Hle. right. exact He.
Qed.

(** [min(l)] is an element of [l] below all the others. *)
Lemma py_min_spec (l : list Q) (m : Q) :
  py_min l = Ok m -> In m l /\ forall e, In e l -> m <= e.
Proof.
  destruct l as [|a xs]; simpl; [discriminate|].
  intros H. injection H as <-. apply fold_py_min2_spec.
Qed.

(** [max(l)] is an element of [l] above all the others. *)
Lemma py_max_spec (l : list Q) (m : Q) :
  py_max l = Ok m -> In m l /\ forall e, In e l -> e <= m.
Proof.
  destruct l as [|a xs]; simpl; [discriminate|].
  intros H. injection H as <-. apply fold_py_max2_spec.
Qed.

Lemma py_min_le_py_max (l : list Q) (mn mx : Q) :
  py_min l = Ok mn -> py_max l = Ok mx -> mn <= mx.
Proof.
  intros Hmn Hmx.
  destruct (py_min_spec _ _ Hmn) as [Hin _].
  destruct (py_max_spec _ _ Hmx) as [_ Hle].
  apply Hle. exact Hin.
Qed.

Lemma py_min_nonempty (l : list Q) : l <> [] -> exists m, py_min l = Ok m.
Proof. destruct l; [congruence|]. intros _. eexists. reflexivity. Qed.

Lemma py_max_nonempty (l : list Q) : l <> [] -> exists m, py_max l = Ok m.
Proof. destruct l; [congruence|]. intros _. eexists. reflexivity. Qed.

(** ** The degenerate-box rules *)

Lemma straddles_true (mn mx : Q) :
  straddles mn mx = true <-> mn <= 0 /\ 1 <= mx.
Proof.
  unfold straddles. rewrite andb_true_iff, !Qle_bool_iff. reflexivity.
Qed.

Lemma in_0_1_true (c : Q) : in_0_1 c = true <-> c == 0 \/ c == 1.
Proof.
  unfold in_0_1. rewrite orb_true_iff, !Qeq_bool_iff. reflexivity.
Qed.

Lemma rule_a_true (cx cy : Q) :
  rule_a cx cy = true <-> (cx == 0 \/ cx == 1) /\ (cy == 0 \/ cy == 1).
Proof.
  unfold rule_a. rewrite andb_true_iff, !in_0_1_true. reflexivity.
Qed.

Lemma bad_bbox_true (cx cy mn_x mx_x mn_y mx_y : Q) :
  bad_bbox cx cy mn_x mx_x mn_y mx_y = true <->
  rule_a cx cy = true \/ straddles mn_x mx_x = true \/
  straddles mn_y mx_y = true.
Proof.
  unfold bad_bbox.
  destruct (rule_a cx cy), (straddles mn_x mx_x), (straddles mn_y mx_y);
    simpl; intuition congruence.
Qed.

(** [bounds_2d] once the four extrema are known. *)
Lemma bounds_2d_unfold (lx ly : list Q) (mn_x mx_x mn_y mx_y : Q) :
  py_min lx = Ok mn_x -> py_max lx = Ok mx_x ->
  py_min ly = Ok mn_y -> py_max ly = Ok mx_y ->
  bounds_2d lx ly =
  if bad_bbox (clamp ((mx_x + mn_x) / 2) 0 1) (clamp ((mx_y + mn_y) / 2) 0 1)
              mn_x mx_x mn_y mx_y
  then Ok (0, 0, 0, 0)
  else Ok (clamp mn_x 0 1, clamp mn_y 0 1, clamp mx_x 0 1, clamp mx_y 0 1).
Proof.
  intros H1 H2 H3 H4. unfold bounds_2d. rewrite H1, H2, H3, H4. reflexivity.
Qed.

(** Whatever the rules decide, the four bounds lie in [0,1] and are
    ordered. *)
Lemma bounds_2d_range (lx ly : list Q) (a b c d : Q) :
  bounds_2d lx ly = Ok (a, b, c, d) ->
  0 <= a /\ a <= c /\ c <= 1 /\ 0 <= b /\ b <= d /\ d <= 1.
Proof.
  unfold bounds_2d.
  destruct (py_max lx) as [mx_x|] eqn:E1; [|discriminate].
  destruct (py_min lx) as [mn_x|] eqn:E2; [|discriminate].
  destruct (py_max ly) as [mx_y|] eqn:E3; [|discriminate].
  destruct (py_min ly) as [mn_y|] eqn:E4; [|discriminate].
  simpl. destruct (bad_bbox _ _ _ _ _ _); intros H; injection H as <- <- <- <-.
  - lra.
  - pose proof (py_min_le_py_max _ _ _ E2 E1) as Hx.
    pose proof (py_min_le_py_max _ _ _ E4 E3) as Hy.
    pose proof (clamp_range mn_x). pose proof (clamp_range mx_x).
    pose proof (clamp_range mn_y). pose proof (clamp_range mx_y).
    pose proof (clamp_monotone _ _ Hx). pose proof (clamp_monotone _ _ Hy).
    lra.
Qed.

(** C3, as the code has it.  With center_u and center_v the clamped
    midpoints of the accumulated extents, rule (a) fires exactly when
    center_u is 0 or 1 and center_v is 0 or 1, that is at any of the four
    corners (0,0), (0,1), (1,0), (1,1); when it fires the bounds are all
    zero, in particular at the center (1,1). *)
Theorem rule_a_fires_at_the_four_corners :
  forall (lx ly : list Q) (min_u max_u min_v max_v : Q),
    py_min lx = Ok min_u -> py_max lx = Ok max_u ->
    py_min ly = Ok min_v -> py_max ly = Ok max_v ->
    let center_u := clamp ((max_u + min_u) / 2) 0 1 in
    let center_v := clamp ((max_v + min_v) / 2) 0 1 in
    (rule_a center_u center_v = true <->
     (center_u == 0 /\ center_v == 0) \/ (center_u == 0 /\ center_v == 1) \/
     (center_u == 1 /\ center_v == 0) \/ (center_u == 1 /\ center_v == 1)) /\
    (rule_a center_u center_v = true -> bounds_2d lx ly = Ok (0, 0, 0, 0)) /\
    (center_u == 1 -> center_v == 1 -> bounds_2d lx ly = Ok (0, 0, 0, 0)).
Proof.
  intros lx ly min_u max_u min_v max_v H1 H2 H3 H4 center_u center_v.
  rewrite (bounds_2d_unfold _ _ _ _ _ _ H1 H2 H3 H4).
  fold center_u center_v.
  assert (Hfire : rule_a center_u center_v = true ->
                  bad_bbox center_u center_v min_u max_u min_v max_v = true).
  { intros H. apply bad_bbox_true. left. exact H. }
  split; [|split].
  - rewrite rule_a_true. tauto.
  - intros H. rewrite (Hfire H). reflexivity.
  - intros Hu Hv. rewrite Hfire; [reflexivity|].
    apply rule_a_true. split; right; assumption.
Qed.

Lemma rule_a_fires_at_the_four_corners_witness :
  bounds_2d [3 # 2] [2] = Ok (0, 0, 0, 0).
Proof.
  apply (rule_a_fires_at_the_four_corners [3 # 2] [2] (3 # 2) (3 # 2) 2 2
           eq_refl eq_refl eq_refl eq_refl); reflexivity.
Defined.

(** The claim that rule (a) fires at (0,0) and (1,1) only fails at the
    center (0,1): the single projected point (-1, 2) has clamped center
    (0,1), rules (b) and (c) do not apply to it, and still its bounds are
    forced to zero instead of being clamped to (0, 1, 0, 1). *)
Lemma rule_a_fires_at_corner_0_1 :
  clamp ((- 1 + - 1) / 2) 0 1 == 0 /\ clamp ((2 + 2) / 2) 0 1 == 1 /\
  rule_a 0 1 = true /\
  ~ ((0 == 0 /\ 1 == 0) \/ (0 == 1 /\ 1 == 1)) /\
  straddles (- 1) (- 1) = false /\ straddles 2 2 = false /\
  bounds_2d [- 1] [2] = Ok (0, 0, 0, 0) /\
  tuple4_eq (clamp (- 1) 0 1, clamp 2 0 1, clamp (- 1) 0 1, clamp 2 0 1)
            (0, 1, 0, 1) /\
  exists b,
    camera_view_bounds_2d (render_640_480 100) ortho_camera [off_corner_vertex]
    = Ok (Some b) /\
    Box.min_x b == 0 /\ Box.min_y b == 0 /\
    Box.max_x b == 0 /\ Box.max_y b == 0.
Proof.
  repeat split; try reflexivity.
  - intros [[_ H] | [H _]]; vm_compute in H; discriminate.
  - eexists. split; [vm_compute; reflexivity|]. repeat split.
Qed.

(** ** camera_view_bounds_2d *)

(** The loop body never hands over to a next iteration: it returns. *)
Lemma loop_body_returns (scene : Render) (persp : bool) (st : loop_state)
    (v : Vector) (r : ctl loop_state Box.t) :
  loop_body scene persp st v = Ok r -> exists b, r = Return b.
Proof.
  unfold loop_body.
  destruct (persp_step persp (- vz v) st) as [[[frame lx] ly]|]; simpl;
    [|discriminate].
  destruct (qdiv _ _) as [x|]; simpl; [|discriminate].
  destruct (qdiv _ _) as [y|]; simpl; [|discriminate].
  destruct (bounds_2d _ _) as [[[[b0 b1] b2] b3]|]; simpl; [|discriminate].
  intros H. injection H as <-. eauto.
Qed.

Lemma for_each_first_only {S V A : Type} (body : S -> V -> result (ctl S A))
    (s : S) (v : V) (rest : list V) :
  (forall r, body s v = Ok r -> exists a, r = Return a) ->
  for_each body s (v :: rest) = for_each body s [v].
Proof.
  intros H. simpl. destruct (body s v) as [r|e] eqn:E; simpl; [|reflexivity].
  destruct (H r eq_refl) as [a ->]. reflexivity.
Qed.

Lemma camera_view_bounds_2d_first_vertex (scene : Render) (cam : Camera)
    (v : Vector) (rest : Mesh) :
  camera_view_bounds_2d scene cam (v :: rest) =
  camera_view_bounds_2d scene cam [v].
Proof.
  unfold camera_view_bounds_2d. apply for_each_first_only.
  intros r. apply loop_body_returns.
Qed.

(** C1 fails on the code: the [return] sits inside the loop, so the Box is
    computed from the first vertex alone and every later vertex is ignored.
    On the two-vertex mesh the second vertex projects to (3/4, 3/4), yet the
    returned bounds are the single point (1/2, 1/2) of the first vertex. *)
Theorem camera_view_bounds_2d_stops_at_first_vertex :
  (forall (scene : Render) (cam : Camera) (v : Vector) (rest : Mesh),
      camera_view_bounds_2d scene cam (v :: rest) =
      camera_view_bounds_2d scene cam [v]) /\
  (exists b,
      camera_view_bounds_2d (render_640_480 100) ortho_camera two_vertex_mesh
      = Ok (Some b) /\
      Box.min_x b == 1 # 2 /\ Box.max_x b == 1 # 2 /\
      Box.min_y b == 1 # 2 /\ Box.max_y b == 1 # 2) /\
  (exists b,
      camera_view_bounds_2d (render_640_480 100) ortho_camera
        (tl two_vertex_mesh) = Ok (Some b) /\
      Box.max_x b == 3 # 4 /\ Box.max_y b == 3 # 4).
Proof.
  split; [|split].
  - apply camera_view_bounds_2d_first_vertex.
  - eexists. split; [vm_compute; reflexivity|]. repeat split.
  - eexists. split; [vm_compute; reflexivity|]. repeat split.
Qed.

Example camera_view_bounds_2d_empty_mesh (scene : Render) (cam : Camera) :
  camera_view_bounds_2d scene cam [] = Ok None.
Proof. reflexivity. Qed.

(** What a returned Box is made of: bounds computed by [bounds_2d] from some
    accumulated coordinates, and the render dimensions. *)
Lemma camera_view_bounds_2d_inv (scene : Render) (cam : Camera) (me : Mesh)
    (b : Box.t) :
  camera_view_bounds_2d scene cam me = Ok (Some b) ->
  (exists lx ly,
      bounds_2d lx ly =
      Ok (Box.min_x b, Box.min_y b, Box.max_x b, Box.max_y b)) /\
  (Box.dim_x b, Box.dim_y b) = render_dims scene.
Proof.
  destruct me as [|v rest]; [discriminate|].
  rewrite camera_view_bounds_2d_first_vertex.
  unfold camera_view_bounds_2d, for_each, loop_body.
  destruct (persp_step _ _ _) as [[[frame lx] ly]|]; simpl; [|discriminate].
  destruct (qdiv _ _) as [x|]; simpl; [|discriminate].
  destruct (qdiv _ _) as [y|]; simpl; [|discriminate].
  destruct (bounds_2d _ _) as [[[[b0 b1] b2] b3]|] eqn:E; simpl;
    [|discriminate].
  intros H. injection H as <-. simpl. split; [eauto | reflexivity].
Qed.

(** At depth zero the perspective branch records the point (0.5, 0.5) and
    divides by nothing. *)
Lemma persp_step_zero_depth (z : Q) (frame : Frame) (lx ly : list Q) :
  z == 0 ->
  persp_step true z (frame, lx, ly) = Ok (frame, lx ++ [1 # 2], ly ++ [1 # 2]).
Proof.
  intros Hz. unfold persp_step. apply Qeq_bool_iff in Hz. rewrite Hz.
  reflexivity.
Qed.

(** ... and the body then goes on exactly like the orthographic one, which
    appends the vertex's own coordinates as a second point. *)
Lemma loop_body_zero_depth (scene : Render) (frame : Frame) (lx ly : list Q)
    (v : Vector) :
  vz v == 0 ->
  loop_body scene true (frame, lx, ly) v =
  loop_body scene false (frame, lx ++ [1 # 2], ly ++ [1 # 2]) v.
Proof.
  intros Hz. unfold loop_body.
  rewrite persp_step_zero_depth; [reflexivity|]. rewrite Hz. reflexivity.
Qed.

(** A zero-depth vertex raises nothing as long as the view frame has a
    nonzero width and height; the Box is built from the two points
    (0.5, 0.5) and (x, y). *)
Lemma zero_depth_vertex_total (scene : Render) (cam : Camera) (v : Vector)
    (rest : Mesh) :
  cam_ortho cam = false -> vz v == 0 ->
  let frame := initial_frame cam in
  let w := vx (frame2 frame) - vx (frame1 frame) in
  let h := vy (frame1 frame) - vy (frame0 frame) in
  ~ w == 0 -> ~ h == 0 ->
  exists b,
    camera_view_bounds_2d scene cam (v :: rest) = Ok (Some b) /\
    bounds_2d [1 # 2; (vx v - vx (frame1 frame)) / w]
              [1 # 2; (vy v - vy (frame0 frame)) / h] =
    Ok (Box.min_x b, Box.min_y b, Box.max_x b, Box.max_y b).
Proof.
  intros Hp Hz frame w h Hw Hh.
  rewrite camera_view_bounds_2d_first_vertex.
  unfold camera_view_bounds_2d. rewrite Hp. simpl negb. fold frame.
  unfold for_each. rewrite loop_body_zero_depth by exact Hz.
  unfold loop_body, persp_step. simpl bind.
  fold w h. rewrite (qdiv_ok _ w Hw), (qdiv_ok _ h Hh). simpl bind.
  simpl app.
  destruct (bounds_2d _ _) as [[[[b0 b1] b2] b3]|] eqn:E.
  - simpl. destruct (render_dims scene) as [dx dy]. simpl.
    eexists. split; [reflexivity|]. reflexivity.
  - exfalso. revert E. unfold bounds_2d. simpl.
    destruct (bad_bbox _ _ _ _ _ _); discriminate.
Qed.

(** C7 fails on the code in its last part.  At depth zero under a
    perspective camera the division by the depth is skipped and nothing is
    raised, but after recording (0.5, 0.5) the body falls through and
    records the vertex a second time: for the vertex (1/4, 1/4, 0) the
    coordinates are [0.5; 0.75], the Box spans 0.5..0.75 in both directions
    and to_tuple() is (320, 120, 160, 120) instead of the all-zero tuple
    of the single point (0.5, 0.5). *)
Theorem zero_depth_vertex_is_recorded_twice :
  (forall (frame : Frame) (lx ly : list Q),
      persp_step true (- vz zero_depth_vertex) (frame, lx, ly) =
      Ok (frame, lx ++ [1 # 2], ly ++ [1 # 2])) /\
  (exists b x y,
      camera_view_bounds_2d (render_640_480 100) persp_camera
        [zero_depth_vertex] = Ok (Some b) /\
      x == 3 # 4 /\ y == 3 # 4 /\
      bounds_2d [1 # 2; x] [1 # 2; y] =
      Ok (Box.min_x b, Box.min_y b, Box.max_x b, Box.max_y b) /\
      Box.min_x b == 1 # 2 /\ Box.max_x b == 3 # 4 /\
      Box.min_y b == 1 # 2 /\ Box.max_y b == 3 # 4 /\
      tuple4_eq (Box.to_tuple b) (320, 120, 160, 120)) /\
  Box.to_tuple (Box.mk (1 # 2) (1 # 2) (1 # 2) (1 # 2) 640 480) = (0, 0, 0, 0).
Proof.
  split; [|split].
  - intros frame lx ly. apply persp_step_zero_depth. reflexivity.
  - exists (Box.mk (1 # 2) (1 # 2) (24 # 32) (24 # 32) (640 * (100 * (1 # 100)))
                   (480 * (100 * (1 # 100)))), (24 # 32), (24 # 32).
    split; [vm_compute; reflexivity|]. vm_compute. repeat split.
  - reflexivity.
Qed.

(** ** write_bounds_2d and the label loop *)

Lemma count_nonzero_zero (t : tuple4) :
  count_nonzero t = 0%nat <-> tuple4_eq t (0, 0, 0, 0).
Proof.
  destruct t as [[[a b] c] d]. unfold count_nonzero, tuple4_eq.
  destruct (Qeq_bool a 0) eqn:Ea, (Qeq_bool b 0) eqn:Eb,
           (Qeq_bool c 0) eqn:Ec, (Qeq_bool d 0) eqn:Ed;
    qprop; simpl; split; intros H; try discriminate; try tauto.
Qed.

Lemma write_bounds_2d_of_box (scene : Render) (cam : Camera) (me : Mesh)
    (b : Box.t) :
  camera_view_bounds_2d scene cam me = Ok (Some b) ->
  write_bounds_2d scene cam me =
  if Nat.eqb (count_nonzero (Box.to_tuple b)) 0 then Ok None
  else Ok (Some (Box.to_tuple b)).
Proof.
  intros H. unfold write_bounds_2d. rewrite H. simpl.
  destruct (Nat.eqb _ _); reflexivity.
Qed.

Lemma write_bounds_2d_empty_mesh (scene : Render) (cam : Camera) :
  write_bounds_2d scene cam [] = Raise AttributeError.
Proof. reflexivity. Qed.

(** A single accumulated point gives a Box of zero width. *)
Lemma bounds_2d_single_point (x y a b c d : Q) :
  bounds_2d [x] [y] = Ok (a, b, c, d) -> a = c /\ b = d.
Proof.
  unfold bounds_2d. simpl.
  destruct (bad_bbox _ _ _ _ _ _); intros H; injection H as <- <- <- <-;
    split; reflexivity.
Qed.

(** Since the loop returns at the first vertex, an object is labelled only
    when that vertex has depth zero under a perspective camera: in every
    other case one point is accumulated and the Box is flat. *)
Lemma first_vertex_off_plane_never_labelled (scene : Render) (cam : Camera)
    (v : Vector) (rest : Mesh) (r : option tuple4) :
  cam_ortho cam = true \/ ~ vz v == 0 ->
  write_bounds_2d scene cam (v :: rest) = Ok r -> r = None.
Proof.
  intros Hcase. unfold write_bounds_2d.
  rewrite camera_view_bounds_2d_first_vertex.
  unfold camera_view_bounds_2d, for_each, loop_body.
  assert (Hstep : forall st, persp_step (negb (cam_ortho cam)) (- vz v) st = Ok st
                             \/ exists f, persp_step (negb (cam_ortho cam)) (- vz v) st
                                          = Ok (f, snd (fst st), snd st)
                             \/ exists e, persp_step (negb (cam_ortho cam)) (- vz v) st
                                          = Raise e).
  { intros [[f lx] ly]. unfold persp_step.
    destruct Hcase as [-> | Hz]; [left; reflexivity|].
    destruct (negb (cam_ortho cam)); [|left; reflexivity].
    assert (E : Qeq_bool (- vz v) 0 = false).
    { apply Qeq_bool_false. intros H. apply Hz. lra. }
    rewrite E. destruct (rescale_frame _ _) as [f'|e]; cbn [bind].
    - right. exists f'. left. reflexivity.
    - right. exists f. right. exists e. reflexivity. }
  destruct (Hstep (initial_frame cam, [], [])) as [E | (f & [E | (e & E)])];
    rewrite E; cbn [bind fst snd]; try discriminate.
  all: destruct (qdiv _ _) as [x|]; cbn [bind]; [|discriminate].
  all: destruct (qdiv _ _) as [y|]; cbn [bind]; [|discriminate].
  all: rewrite !app_nil_l.
  all: destruct (bounds_2d [x] [y]) as [[[[a b] c] d]|] eqn:Eb; cbn [bind];
    [|discriminate].
  all: apply bounds_2d_single_point in Eb; destruct Eb as [<- <-].
  all: destruct (render_dims scene) as [dx dy]; cbn [bind].
  all: unfold Box.to_tuple, Box.width; cbn [Box.min_x Box.max_x Box.dim_x].
  all: assert (Ew : Qeq_bool ((a - a) * dx) 0 = true)
    by (apply Qeq_bool_iff; ring).
  all: rewrite Ew; cbn [orb]; simpl.
  all: intros H; injection H as <-; reflexivity.
Qed.

(** A Box with a nonzero pixel size was built at a nonzero resolution. *)
Lemma nonzero_box_nonzero_resolution (scene : Render) (cam : Camera)
    (me : Mesh) (b : Box.t) :
  camera_view_bounds_2d scene cam me = Ok (Some b) ->
  ~ tuple4_eq (Box.to_tuple b) (0, 0, 0, 0) ->
  ~ inject_Z (resolution_x scene) == 0 /\
  ~ inject_Z (resolution_y scene) == 0.
Proof.
  intros Hb Hnz.
  destruct (camera_view_bounds_2d_inv _ _ _ _ Hb) as [_ Hdims].
  unfold render_dims in Hdims. injection Hdims as Hdx Hdy.
  assert (Hwh : ~ (Box.width b == 0 \/ Box.height b == 0)).
  { intros H. apply to_tuple_zero_iff in H. apply Hnz. rewrite H.
    repeat split. }
  split; intros H0; apply Hwh; [left | right].
  - unfold Box.width. rewrite Hdx, H0. ring.
  - unfold Box.height. rewrite Hdy, H0. ring.
Qed.

Lemma string_app_assoc (a b c : string) :
  ((a ++ b) ++ c)%string = (a ++ (b ++ c))%string.
Proof. induction a as [|ch a IH]; simpl; [reflexivity | now rewrite IH]. Qed.

Lemma string_app_empty_r (a : string) : (a ++ EmptyString)%string = a.
Proof. induction a as [|ch a IH]; simpl; [reflexivity | now rewrite IH]. Qed.

Section LabelFacts.

Variable float_str : Q -> string.
Variable scene : Scene.

(** An object either leaves the text alone or appends the line of its
    label. *)
Lemma label_object_cases (all_data : string) (me_ob : Mesh) (s : string) :
  label_object float_str scene all_data me_ob = Ok s ->
  s = all_data \/
  exists label,
    emitted_label scene me_ob label /\
    s = (all_data ++ label_line float_str label)%string.
Proof.
  unfold label_object, write_bounds_2d.
  destruct (camera_view_bounds_2d _ _ _) as [[b|]|] eqn:Hb; cbn [bind];
    try discriminate.
  destruct (Nat.eqb (count_nonzero (Box.to_tuple b)) 0) eqn:E;
    cbn [negb bind].
  - intros H. injection H as <-. left. reflexivity.
  - destruct (normalize _ _ _) as [label|] eqn:Hn; cbn [bind];
      [|discriminate].
    intros H. injection H as <-. right. exists label. split; [|reflexivity].
    exists b. repeat split; try assumption.
    intros Hz. apply count_nonzero_zero in Hz. rewrite Hz in E.
    discriminate.
Qed.

(** The text of a frame is made of label lines only, each of an object of
    the frame. *)
Lemma label_objects_lines (objs : list Mesh) :
  forall (all_data s : string),
    label_objects float_str scene all_data objs = Ok s ->
    exists labels,
      s = (all_data ++ label_lines float_str labels)%string /\
      Forall (fun l => exists me_ob, In me_ob objs /\
                                    emitted_label scene me_ob l) labels.
Proof.
  induction objs as [|me_ob rest IH]; intros all_data s; simpl.
  - intros H. injection H as <-. exists []. simpl.
    rewrite string_app_empty_r. split; [reflexivity | constructor].
  - destruct (label_object _ _ _ _) as [s1|] eqn:H1; cbn [bind];
      [|discriminate].
    intros H2. destruct (IH _ _ H2) as (labels & -> & Hall).
    assert (Hall' : Forall (fun l => exists me, In me (me_ob :: rest) /\
                                       emitted_label scene me l) labels).
    { eapply Forall_impl; [|exact Hall].
      intros l (me & Hin & He). exists me. split; [right|]; assumption. }
    destruct (label_object_cases _ _ _ H1) as [-> | (label & He & ->)].
    + exists labels. split; [reflexivity | exact Hall'].
    + exists (label :: labels). split.
      * simpl. apply string_app_assoc.
      * constructor; [|exact Hall'].
        exists me_ob. split; [left; reflexivity | exact He].
Qed.

Lemma label_frame_lines (frame_current : Z) (name text : string) :
  label_frame float_str scene frame_current = Ok (name, text) ->
  name = label_filename frame_current /\
  exists labels,
    text = label_lines float_str labels /\
    Forall (fun l => exists me_ob,
                In me_ob (meshes_at scene frame_current) /\
                emitted_label scene me_ob l) labels.
Proof.
  unfold label_frame.
  destruct (label_objects _ _ _ _) as [s|] eqn:H; cbn [bind];
    [|discriminate].
  intros E. injection E as <- <-. split; [reflexivity|].
  destruct (label_objects_lines _ _ _ H) as (labels & -> & Hall).
  exists labels. split; [reflexivity | exact Hall].
Qed.

End LabelFacts.

(** One file per frame of [range(frame_start, frame_end)], in order, named
    after the frame. *)
Lemma label_frames_names (float_str : Q -> string) (scene : Scene)
    (frames : list Z) :
  forall files,
    label_frames float_str scene frames = Ok files ->
    map fst files = map label_filename frames.
Proof.
  induction frames as [|f rest IH]; intros files; simpl.
  - intros H. injection H as <-. reflexivity.
  - unfold label_frame at 1.
    destruct (label_objects _ _ _ _) as [text|]; cbn [bind]; [|discriminate].
    destruct (label_frames _ _ rest) as [files'|]; cbn [bind]; [|discriminate].
    intros H. injection H as <-. simpl. f_equal. apply IH. reflexivity.
Qed.

Lemma main_labels_names (float_str : Q -> string) (scene : Scene)
    (frame_start frame_end : Z) (files : list (string * string)) :
  main_labels float_str scene frame_start frame_end = Ok files ->
  map fst files = map label_filename (py_range frame_start frame_end).
Proof. apply label_frames_names. Qed.

(** Every line starts with the class id 0 and ends with a newline. *)
Lemma label_line_shape (float_str : Q -> string) (xc yc w h : Q) :
  label_line float_str (xc, yc, w, h) =
  String "0" (String " "
    (float_str xc ++ String " " (float_str yc ++ String " "
      (float_str w ++ String " " (float_str h ++ newline)))))%string.
Proof. reflexivity. Qed.

Lemma unit_scale (fac m : Q) :
  0 <= fac <= 1 -> 0 <= m <= 1 -> 0 <= fac * m <= 1.
Proof.
  intros [Hf0 Hf1] [Hm0 Hm1]. split.
  - apply Qmult_le_0_compat; assumption.
  - apply Qle_trans with (1 * m); [|lra].
    apply Qmult_le_compat_r; assumption.
Qed.

(** With a resolution percentage of at most 100 the emitted values are in
    [0,1]. *)
Lemma emitted_label_in_unit_range (scene : Scene) (me_ob : Mesh)
    (label : tuple4) :
  (0 < resolution_x (render scene))%Z ->
  (0 < resolution_y (render scene))%Z ->
  (0 <= resolution_percentage (render scene) <= 100)%Z ->
  emitted_label scene me_ob label ->
  in_unit_range label.
Proof.
  intros Hrx Hry [Hp0 Hp1] (b & Hb & Hnz & Hn).
  rewrite Zlt_Qlt in Hrx, Hry. rewrite Zle_Qle in Hp0, Hp1.
  change (inject_Z 0) with 0 in Hrx, Hry, Hp0.
  change (inject_Z 100) with 100 in Hp1.
  set (rx := inject_Z (resolution_x (render scene))) in *.
  set (ry := inject_Z (resolution_y (render scene))) in *.
  set (p := inject_Z (resolution_percentage (render scene))) in *.
  destruct (camera_view_bounds_2d_inv _ _ _ _ Hb) as [(lx & ly & Hbd) Hdims].
  apply bounds_2d_range in Hbd.
  unfold render_dims in Hdims. fold rx ry p in Hdims.
  injection Hdims as Hdx Hdy.
  assert (Hfac : 0 <= p * (1 # 100) <= 1).
  { split; lra. }
  unfold Box.to_tuple in Hn, Hnz.
  destruct (Qeq_bool (Box.width b) 0 || Qeq_bool (Box.height b) 0).
  { exfalso. apply Hnz. repeat split. }
  rewrite normalize_ok in Hn by lra. injection Hn as <-.
  unfold Box.x, Box.y, Box.width, Box.height. rewrite Hdx, Hdy.
  set (fac := p * (1 # 100)) in *.
  destruct b as [mnx mny mxx mxy dx dy]. simpl in *.
  assert (E1 : (mnx * (rx * fac) + (mxx - mnx) * (rx * fac) / 2) / rx
               == fac * ((mnx + mxx) * (1 # 2))) by (field; lra).
  assert (E2 : (ry * fac - mxy * (ry * fac) + (mxy - mny) * (ry * fac) / 2) / ry
               == fac * (1 - (mny + mxy) * (1 # 2))) by (field; lra).
  assert (E3 : (mxx - mnx) * (rx * fac) / rx == fac * (mxx - mnx))
    by (field; lra).
  assert (E4 : (mxy - mny) * (ry * fac) / ry == fac * (mxy - mny))
    by (field; lra).
  rewrite E1, E2, E3, E4.
  destruct Hbd as (B1 & B2 & B3 & B4 & B5 & B6).
  assert (U1 : 0 <= fac * ((mnx + mxx) * (1 # 2)) <= 1)
    by (apply unit_scale; [assumption | split; lra]).
  assert (U2 : 0 <= fac * (1 - (mny + mxy) * (1 # 2)) <= 1)
    by (apply unit_scale; [assumption | split; lra]).
  assert (U3 : 0 <= fac * (mxx - mnx) <= 1)
    by (apply unit_scale; [assumption | split; lra]).
  assert (U4 : 0 <= fac * (mxy - mny) <= 1)
    by (apply unit_scale; [assumption | split; lra]).
  tauto.
Qed.

(** For the frames 0 .. 9999 the file name carries exactly four digits,
    which read back as the frame number. *)
Lemma label_filename_four_digits (n : Z) :
  (0 <= n < 10000)%Z -> four_digit_index n = true.
Proof.
  intros Hn.
  assert (Hall : forallb four_digit_index (py_range 0 10000) = true)
    by (vm_compute; reflexivity).
  rewrite forallb_forall in Hall. apply Hall.
  unfold py_range. apply in_map_iff. exists (Z.to_nat n). split; [lia|].
  apply in_seq. lia.
Qed.

Example label_filename_7 : label_filename 7 = "frame_0007.txt"%string.
Proof. reflexivity. Qed.

Example label_filename_12345 : label_filename 12345 = "frame_12345.txt"%string.
Proof. reflexivity. Qed.

(** C9 fails on the code.  The Box is sized with the resolution scaled by
    resolution_percentage, while main normalises by the unscaled
    resolution, so above 100 percent the values leave [0,1]: at 200 percent
    the object whose first vertex is (1/4, 1/4, 0) gets the label line with
    x_center = 1.25. *)
Theorem label_value_exceeds_one_at_200_percent :
  forall float_str : Q -> string,
    exists x_center y_center width height : Q,
      label_frame float_str (one_object_scene 200 [zero_depth_vertex]) 0 =
      Ok ("frame_0000.txt"%string,
          label_line float_str (x_center, y_center, width, height)) /\
      emitted_label (one_object_scene 200 [zero_depth_vertex])
                    [zero_depth_vertex] (x_center, y_center, width, height) /\
      x_center == 5 # 4 /\ 1 < x_center /\
      ~ in_unit_range (x_center, y_center, width, height).
Proof.
  intros float_str.
  do 4 eexists. split; [|split; [|split; [|split]]].
  - vm_compute. reflexivity.
  - eexists. split; [vm_compute; reflexivity|]. split.
    + vm_compute. intros (H & _). discriminate.
    + vm_compute. reflexivity.
  - vm_compute. reflexivity.
  - vm_compute. reflexivity.
  - intros ((_ & H) & _). vm_compute in H. apply H. reflexivity.
Qed.

(** * Further properties of the code *)

(** ** clamp *)

(** X1.  When minimum <= maximum, clamp(x, minimum, maximum) lies between
    the two bounds, is x itself when x already does, is the nearer bound
    when it does not, and clamping twice changes nothing more. *)
Theorem clamp_within_bounds :
  forall x minimum maximum : Q,
    minimum <= maximum ->
    minimum <= clamp x minimum maximum <= maximum /\
    (minimum <= x <= maximum -> clamp x minimum maximum == x) /\
    (x <= minimum -> clamp x minimum maximum == minimum) /\
    (maximum <= x -> clamp x minimum maximum == maximum) /\
    clamp (clamp x minimum maximum) minimum maximum == clamp x minimum maximum.
Proof.
  intros x lo hi Hle.
  assert (Hr : lo <= clamp x lo hi <= hi).
  { unfold clamp. unfold py_min2. qcase; unfold py_max2; qcase; qprop;
      split; lra. }
  assert (Hin : forall t, lo <= t <= hi -> clamp t lo hi == t).
  { intros t [H1 H2]. unfold clamp. unfold py_min2. qcase; unfold py_max2;
      qcase; qprop; lra. }
  split; [exact Hr|]. split; [apply Hin|].
  split; [|split].
  - intros H. unfold clamp. unfold py_min2. qcase; unfold py_max2; qcase;
      qprop; lra.
  - intros H. unfold clamp. unfold py_min2. qcase; unfold py_max2; qcase;
      qprop; lra.
  - apply Hin. exact Hr.
Qed.

Lemma clamp_within_bounds_witness :
  (1 # 1000) <= clamp 5 (1 # 1000) (999 # 1000) <= (999 # 1000) /\
  clamp 5 (1 # 1000) (999 # 1000) == 999 # 1000.
Proof.
  pose proof (clamp_within_bounds 5 (1 # 1000) (999 # 1000)) as H.
  destruct H as (H1 & _ & _ & H4 & _).
  - vm_compute. discriminate.
  - split; [exact H1|]. apply H4. vm_compute. discriminate.
Defined.

(** X2.  With the bounds in the wrong order (maximum < minimum) clamp
    returns minimum whatever x is. *)
Theorem clamp_inverted_bounds :
  forall x minimum maximum : Q,
    maximum < minimum -> clamp x minimum maximum = minimum.
Proof.
  intros x lo hi Hlt. unfold clamp, py_max2.
  destruct (Qltb lo (py_min2 x hi)) eqn:E; [|reflexivity].
  exfalso. apply Qltb_true in E.
  destruct (py_min2_spec x hi) as (_ & H & _). lra.
Qed.

Lemma clamp_inverted_bounds_witness : clamp (1 # 2) 1 0 = 1.
Proof. apply (clamp_inverted_bounds (1 # 2) 1 0). reflexivity. Defined.

(** ** The camera path offset *)

(** X3.  The follow-path offset that main keys on the camera and target
    constraints is always within [0.001, 0.999], hence strictly between 0
    and 1; it is the computed quotient itself whenever that already lies in
    the interval, and the nearer end of the interval otherwise. *)
Theorem follow_offset_range :
  forall offset : Q,
    let r := relative_target_follow_offset offset in
    (1 # 1000) <= r <= (999 # 1000) /\
    0 < r /\ r < 1 /\
    ((1 # 1000) <= offset <= (999 # 1000) -> r == offset) /\
    (offset <= (1 # 1000) -> r == 1 # 1000) /\
    ((999 # 1000) <= offset -> r == 999 # 1000).
Proof.
  intros offset r. unfold r, relative_target_follow_offset.
  unfold py_min2. qcase; unfold py_max2; qcase; qprop;
    repeat split; intros; lra.
Qed.

(** ** The Box returned by camera_view_bounds_2d *)

Lemma render_dims_nonneg (scene : Render) :
  (0 <= resolution_x scene)%Z -> (0 <= resolution_y scene)%Z ->
  (0 <= resolution_percentage scene)%Z ->
  0 <= fst (render_dims scene) /\ 0 <= snd (render_dims scene).
Proof.
  intros Hx Hy Hp. rewrite Zle_Qle in Hx, Hy, Hp.
  change (inject_Z 0) with 0 in Hx, Hy, Hp.
  unfold render_dims. simpl.
  assert (Hf : 0 <= inject_Z (resolution_percentage scene) * (1 # 100)).
  { apply Qmult_le_0_compat; [exact Hp | lra]. }
  split; apply Qmult_le_0_compat; assumption.
Qed.

(** X4.  Whatever the camera and the mesh, a Box returned by
    camera_view_bounds_2d has its bounds in [0,1] with min <= max on both
    axes, and carries the render resolution scaled by the resolution
    percentage. *)
Theorem returned_box_bounds_ordered_in_unit_square :
  forall (scene : Render) (cam : Camera) (me : Mesh) (b : Box.t),
    camera_view_bounds_2d scene cam me = Ok (Some b) ->
    0 <= Box.min_x b /\ Box.min_x b <= Box.max_x b /\ Box.max_x b <= 1 /\
    0 <= Box.min_y b /\ Box.min_y b <= Box.max_y b /\ Box.max_y b <= 1 /\
    Box.dim_x b =
      inject_Z (resolution_x scene) *
      (inject_Z (resolution_percentage scene) * (1 # 100)) /\
    Box.dim_y b =
      inject_Z (resolution_y scene) *
      (inject_Z (resolution_percentage scene) * (1 # 100)).
Proof.
  intros scene cam me b Hb.
  destruct (camera_view_bounds_2d_inv _ _ _ _ Hb) as [(lx & ly & Hbd) Hdims].
  apply bounds_2d_range in Hbd. unfold render_dims in Hdims.
  injection Hdims as Hdx Hdy. tauto.
Qed.

Lemma zero_depth_box_returned :
  camera_view_bounds_2d (render_640_480 100) persp_camera [zero_depth_vertex]
  = Ok (Some zero_depth_box).
Proof. vm_compute. reflexivity. Qed.

Lemma returned_box_bounds_ordered_in_unit_square_witness :
  Box.min_x zero_depth_box <= Box.max_x zero_depth_box /\
  Box.max_x zero_depth_box <= 1.
Proof.
  pose proof (returned_box_bounds_ordered_in_unit_square
                _ _ _ _ zero_depth_box_returned) as (_ & H1 & H2 & _).
  split; assumption.
Defined.

Lemma pixel_rectangle_inside_image :
  forall (scene : Render) (cam : Camera) (me : Mesh) (b : Box.t),
    camera_view_bounds_2d scene cam me = Ok (Some b) ->
    (0 <= resolution_x scene)%Z -> (0 <= resolution_y scene)%Z ->
    (0 <= resolution_percentage scene)%Z ->
    0 <= Box.x b /\ 0 <= Box.width b /\
    Box.x b + Box.width b <= Box.dim_x b /\
    0 <= Box.y b /\ 0 <= Box.height b /\
    Box.y b + Box.height b <= Box.dim_y b.
Proof.
  intros scene cam me b Hb Hx Hy Hp.
  destruct (render_dims_nonneg scene Hx Hy Hp) as [Hdx Hdy].
  destruct (camera_view_bounds_2d_inv _ _ _ _ Hb) as [(lx & ly & Hbd) Hdims].
  apply bounds_2d_range in Hbd.
  destruct Hbd as (B1 & B2 & B3 & B4 & B5 & B6).
  rewrite <- Hdims in Hdx, Hdy. simpl in Hdx, Hdy.
  unfold Box.x, Box.y, Box.width, Box.height.
  set (dx := Box.dim_x b) in *. set (dy := Box.dim_y b) in *.
  set (a := Box.min_x b) in *. set (c := Box.max_x b) in *.
  set (a' := Box.min_y b) in *. set (c' := Box.max_y b) in *.
  assert (P1 : 0 <= a * dx) by (apply Qmult_le_0_compat; lra).
  assert (P2 : 0 <= (c - a) * dx) by (apply Qmult_le_0_compat; lra).
  assert (P3 : 0 <= (1 - c) * dx) by (apply Qmult_le_0_compat; lra).
  assert (P4 : 0 <= (1 - c') * dy) by (apply Qmult_le_0_compat; lra).
  assert (P5 : 0 <= (c' - a') * dy) by (apply Qmult_le_0_compat; lra).
  assert (P6 : 0 <= a' * dy) by (apply Qmult_le_0_compat; lra).
  repeat split; try assumption.
  - assert (E : a * dx + (c - a) * dx == dx - (1 - c) * dx) by ring.
    rewrite E. lra.
  - assert (E : dy - c' * dy == (1 - c') * dy) by ring. rewrite E. exact P4.
  - assert (E : dy - c' * dy + (c' - a') * dy == dy - a' * dy) by ring.
    rewrite E. lra.
Qed.

(** X5.  At a non-negative resolution the pixel rectangle of a returned Box
    lies inside the image: x and y are non-negative, width and height are
    non-negative, and x + width <= dim_x, y + height <= dim_y. *)
Theorem returned_box_pixel_rectangle_inside_image :
  forall (scene : Render) (cam : Camera) (me : Mesh) (b : Box.t),
    camera_view_bounds_2d scene cam me = Ok (Some b) ->
    (0 <= resolution_x scene)%Z -> (0 <= resolution_y scene)%Z ->
    (0 <= resolution_percentage scene)%Z ->
    0 <= Box.x b /\ 0 <= Box.width b /\
    Box.x b + Box.width b <= Box.dim_x b /\
    0 <= Box.y b /\ 0 <= Box.height b /\
    Box.y b + Box.height b <= Box.dim_y b.
Proof. exact pixel_rectangle_inside_image. Qed.

Lemma returned_box_pixel_rectangle_inside_image_witness :
  Box.x zero_depth_box + Box.width zero_depth_box <= Box.dim_x zero_depth_box /\
  Box.y zero_depth_box + Box.height zero_depth_box <= Box.dim_y zero_depth_box.
Proof.
  pose proof (returned_box_pixel_rectangle_inside_image
                _ _ _ _ zero_depth_box_returned) as H.
  destruct H as (_ & _ & H1 & _ & _ & H2); try (vm_compute; discriminate).
  split; assumption.
Defined.

(** ** Bounds of objects outside and inside the frame *)

Lemma clamp_strictly_inside (x : Q) : 0 < x -> x <= 1 -> clamp x 0 1 = x.
Proof.
  intros H0 H1. unfold clamp, py_min2.
  assert (E1 : Qltb 1 x = false) by (apply Qltb_false; exact H1).
  rewrite E1. unfold py_max2.
  assert (E2 : Qltb 0 x = true) by (apply Qltb_true; exact H0).
  rewrite E2. reflexivity.
Qed.

Lemma half_sum (a b : Q) : (a + b) / 2 == (a + b) * (1 # 2).
Proof. field. Qed.

(** X7.  When the accumulated extent lies strictly inside the frame on both
    axes, no degenerate-box rule fires and the bounds are the extrema
    themselves, unchanged by the clamping. *)
Theorem extent_inside_frame_is_kept :
  forall (lx ly : list Q) (min_u max_u min_v max_v : Q),
    py_min lx = Ok min_u -> py_max lx = Ok max_u ->
    py_min ly = Ok min_v -> py_max ly = Ok max_v ->
    0 < min_u -> max_u < 1 -> 0 < min_v -> max_v < 1 ->
    bounds_2d lx ly = Ok (min_u, min_v, max_u, max_v).
Proof.
  intros lx ly min_u max_u min_v max_v H1 H2 H3 H4 Ha Hb Hc Hd.
  pose proof (py_min_le_py_max _ _ _ H1 H2) as Hu.
  pose proof (py_min_le_py_max _ _ _ H3 H4) as Hv.
  rewrite (bounds_2d_unfold _ _ _ _ _ _ H1 H2 H3 H4).
  assert (Hcu : clamp ((max_u + min_u) / 2) 0 1 == (max_u + min_u) * (1 # 2)).
  { transitivity ((max_u + min_u) / 2); [|apply half_sum].
    apply clamp_inside. rewrite half_sum. split; lra. }
  assert (Hcv : clamp ((max_v + min_v) / 2) 0 1 == (max_v + min_v) * (1 # 2)).
  { transitivity ((max_v + min_v) / 2); [|apply half_sum].
    apply clamp_inside. rewrite half_sum. split; lra. }
  destruct (bad_bbox _ _ _ _ _ _) eqn:E.
  - exfalso. apply bad_bbox_true in E.
    rewrite rule_a_true, !straddles_true in E.
    destruct E as [[[E | E] _] | [[E _] | [E _]]];
      try rewrite Hcu in E; lra.
  - rewrite !clamp_strictly_inside by lra. reflexivity.
Qed.

Lemma extent_inside_frame_is_kept_witness :
  bounds_2d [1 # 4; 3 # 4; 1 # 2] [1 # 8; 1 # 2] =
  Ok (1 # 4, 1 # 8, 3 # 4, 1 # 2).
Proof.
  apply (extent_inside_frame_is_kept
           [1 # 4; 3 # 4; 1 # 2] [1 # 8; 1 # 2]
           (1 # 4) (3 # 4) (1 # 8) (1 # 2)
           eq_refl eq_refl eq_refl eq_refl); reflexivity.
Defined.

(** ** write_bounds_2d *)

(** X8.  A tuple returned by write_bounds_2d is never the sentinel: its
    width and height are both nonzero, and at a non-negative resolution and
    percentage they are strictly positive with x >= 0 and y >= 0. *)
Theorem write_bounds_2d_returns_nondegenerate_tuple :
  forall (scene : Render) (cam : Camera) (me : Mesh) (x y w h : Q),
    write_bounds_2d scene cam me = Ok (Some (x, y, w, h)) ->
    ~ w == 0 /\ ~ h == 0 /\
    ((0 <= resolution_x scene)%Z -> (0 <= resolution_y scene)%Z ->
     (0 <= resolution_percentage scene)%Z ->
     0 < w /\ 0 < h /\ 0 <= x /\ 0 <= y).
Proof.
  intros scene cam me x y w h Hw.
  unfold write_bounds_2d in Hw.
  destruct (camera_view_bounds_2d scene cam me) as [[b|]|] eqn:Hb;
    cbn [bind] in Hw; try discriminate.
  destruct (Nat.eqb (count_nonzero (Box.to_tuple b)) 0) eqn:E;
    cbn [negb] in Hw; [discriminate|].
  injection Hw as Ht.
  assert (Hnz : ~ (Box.width b == 0 \/ Box.height b == 0)).
  { intros H. apply to_tuple_zero_iff in H. rewrite H in E.
    discriminate. }
  unfold Box.to_tuple in Ht.
  destruct (Qeq_bool (Box.width b) 0 || Qeq_bool (Box.height b) 0) eqn:Eo.
  { exfalso. apply Hnz. apply orb_true_iff in Eo.
    rewrite !Qeq_bool_iff in Eo. exact Eo. }
  injection Ht as <- <- <- <-.
  split; [tauto|]. split; [tauto|].
  intros Hx Hy Hp.
  destruct (pixel_rectangle_inside_image _ _ _ _ Hb Hx Hy Hp)
    as (P1 & P2 & _ & P4 & P5 & _).
  repeat split; try assumption.
  - destruct (Qlt_le_dec 0 (Box.width b)) as [H | H]; [exact H|].
    exfalso. apply Hnz. left. lra.
  - destruct (Qlt_le_dec 0 (Box.height b)) as [H | H]; [exact H|].
    exfalso. apply Hnz. right. lra.
Qed.

Lemma write_bounds_2d_returns_nondegenerate_tuple_witness :
  ~ Box.width zero_depth_box == 0 /\ ~ Box.height zero_depth_box == 0.
Proof.
  assert (H : write_bounds_2d (render_640_480 100) persp_camera
                [zero_depth_vertex] =
              Ok (Some (Box.x zero_depth_box, Box.y zero_depth_box,
                        Box.width zero_depth_box, Box.height zero_depth_box)))
    by (vm_compute; reflexivity).
  destruct (write_bounds_2d_returns_nondegenerate_tuple _ _ _ _ _ _ _ H)
    as (H1 & H2 & _).
  split; assumption.
Defined.

(** ** When camera_view_bounds_2d raises and when it returns *)

Lemma Qdiv_nonzero (a b : Q) : ~ a == 0 -> ~ b == 0 -> ~ a / b == 0.
Proof.
  intros Ha Hb H. apply Ha.
  assert (E : a == a / b * b) by (field; exact Hb).
  rewrite E, H. ring.
Qed.

Lemma qdiv_inv (a b c : Q) : qdiv a b = Ok c -> ~ b == 0 /\ c = a / b.
Proof.
  unfold qdiv. destruct (Qeq_bool b 0) eqn:E; [discriminate|].
  intros H. injection H as <-. split; [|reflexivity].
  apply Qeq_bool_false. exact E.
Qed.

Lemma qdiv_raises (a b : Q) (e : exn) :
  qdiv a b = Raise e -> e = ZeroDivisionError /\ b == 0.
Proof.
  unfold qdiv. destruct (Qeq_bool b 0) eqn:E; [|discriminate].
  intros H. injection H as <-. split; [reflexivity|].
  apply Qeq_bool_iff. exact E.
Qed.

Lemma rescale_corner_inv (z : Q) (c c' : Vector) :
  rescale_corner z c = Ok c' ->
  ~ z == 0 /\ ~ vz c == 0 /\
  c' = mkVector (vx c / (vz c / z)) (vy c / (vz c / z)) (vz c / (vz c / z)).
Proof.
  unfold rescale_corner.
  destruct (qdiv (vz c) z) as [s|] eqn:Es; cbn [bind]; [|discriminate].
  apply qdiv_inv in Es. destruct Es as [Hz ->].
  unfold vec_div. destruct (Qeq_bool (vz c / z) 0) eqn:E; [discriminate|].
  intros H. injection H as <-. split; [exact Hz|]. split; [|reflexivity].
  apply Qeq_bool_false in E. intros H0. apply E. rewrite H0.
  unfold Qdiv. ring.
Qed.

Lemma rescale_corner_raises (z : Q) (c : Vector) (e : exn) :
  rescale_corner z c = Raise e -> e = ZeroDivisionError.
Proof.
  unfold rescale_corner.
  destruct (qdiv (vz c) z) as [s|e'] eqn:Es; cbn [bind].
  - unfold vec_div. destruct (Qeq_bool s 0); [|discriminate].
    intros H. injection H as <-. reflexivity.
  - intros H. injection H as <-. apply (qdiv_raises _ _ _ Es).
Qed.

Lemma rescale_frame_raises (z : Q) (f : Frame) (e : exn) :
  rescale_frame z f = Raise e -> e = ZeroDivisionError.
Proof.
  unfold rescale_frame.
  destruct (rescale_corner z (frame0 f)) as [a|e0] eqn:E0; cbn [bind];
    [|intros H; injection H as <-; exact (rescale_corner_raises _ _ _ E0)].
  destruct (rescale_corner z (frame1 f)) as [b|e1] eqn:E1; cbn [bind];
    [|intros H; injection H as <-; exact (rescale_corner_raises _ _ _ E1)].
  destruct (rescale_corner z (frame2 f)) as [c|e2] eqn:E2; cbn [bind];
    [discriminate|].
  intros H. injection H as <-. exact (rescale_corner_raises _ _ _ E2).
Qed.

Lemma persp_step_raises (persp : bool) (z : Q) (st : loop_state) (e : exn) :
  persp_step persp z st = Raise e -> e = ZeroDivisionError.
Proof.
  destruct st as [[f lx] ly]. unfold persp_step.
  destruct persp; [|discriminate].
  destruct (Qeq_bool z 0); [discriminate|].
  destruct (rescale_frame z f) as [f'|e'] eqn:E; cbn [bind]; [discriminate|].
  intros H. injection H as <-. exact (rescale_frame_raises _ _ _ E).
Qed.

(** The lists handed to [bounds_2d] are never empty. *)
Lemma bounds_2d_snoc_ok (lx ly : list Q) (x y : Q) :
  exists t, bounds_2d (lx ++ [x]) (ly ++ [y]) = Ok t.
Proof.
  unfold bounds_2d.
  destruct (lx ++ [x]) as [|a lx'] eqn:Ex;
    [destruct lx; discriminate|].
  destruct (ly ++ [y]) as [|b ly'] eqn:Ey;
    [destruct ly; discriminate|].
  simpl. destruct (bad_bbox _ _ _ _ _ _); eauto.
Qed.

Lemma loop_body_raises (scene : Render) (persp : bool) (st : loop_state)
    (v : Vector) (e : exn) :
  loop_body scene persp st v = Raise e -> e = ZeroDivisionError.
Proof.
  unfold loop_body.
  destruct (persp_step persp (- vz v) st) as [[[f lx] ly]|e0] eqn:E0;
    cbn [bind];
    [|intros H; injection H as <-; exact (persp_step_raises _ _ _ _ E0)].
  destruct (qdiv (vx v - _) _) as [x|e1] eqn:E1; cbn [bind];
    [|intros H; injection H as <-; apply (qdiv_raises _ _ _ E1)].
  destruct (qdiv (vy v - _) _) as [y|e2] eqn:E2; cbn [bind];
    [|intros H; injection H as <-; apply (qdiv_raises _ _ _ E2)].
  destruct (bounds_2d_snoc_ok lx ly x y) as [[[[a b] c] d] ->]. cbn [bind].
  destruct (render_dims scene). discriminate.
Qed.

(** X9.  The only exception camera_view_bounds_2d can raise is
    ZeroDivisionError, and only on a mesh with at least one vertex; it
    returns None exactly for the mesh without vertices, and that is exactly
    when write_bounds_2d raises AttributeError. *)
Theorem exceptions_of_camera_view_bounds_2d :
  forall (scene : Render) (cam : Camera) (me : Mesh),
    (forall e, camera_view_bounds_2d scene cam me = Raise e ->
               e = ZeroDivisionError /\ me <> []) /\
    (camera_view_bounds_2d scene cam me = Ok None <-> me = []) /\
    (write_bounds_2d scene cam me = Raise AttributeError <-> me = []) /\
    (forall e, write_bounds_2d scene cam me = Raise e ->
               e = ZeroDivisionError \/ e = AttributeError).
Proof.
  intros scene cam me.
  assert (Hnone : camera_view_bounds_2d scene cam me = Ok None <-> me = []).
  { split; [|intros ->; reflexivity].
    destruct me as [|v rest]; [reflexivity|].
    rewrite camera_view_bounds_2d_first_vertex.
    unfold camera_view_bounds_2d, for_each.
    destruct (loop_body _ _ _ _) as [r|e] eqn:E; cbn [bind]; [|discriminate].
    destruct (loop_body_returns _ _ _ _ _ E) as [b ->]. discriminate. }
  assert (Hraise : forall e, camera_view_bounds_2d scene cam me = Raise e ->
                             e = ZeroDivisionError /\ me <> []).
  { intros e. destruct me as [|v rest]; [discriminate|].
    rewrite camera_view_bounds_2d_first_vertex.
    unfold camera_view_bounds_2d, for_each.
    destruct (loop_body _ _ _ _) as [r|e'] eqn:E; cbn [bind].
    - destruct r; discriminate.
    - intros H. injection H as <-. split; [|discriminate].
      exact (loop_body_raises _ _ _ _ _ E). }
  split; [exact Hraise|]. split; [exact Hnone|]. split.
  - unfold write_bounds_2d.
    destruct (camera_view_bounds_2d scene cam me) as [[b|]|e] eqn:E;
      cbn [bind].
    + split; [destruct (negb _); discriminate|].
      intros ->. discriminate.
    + split; [intros _; apply Hnone; reflexivity | reflexivity].
    + split.
      * intros H. injection H as ->.
        destruct (Hraise _ eq_refl) as [H _]. discriminate.
      * intros ->. discriminate.
  - intros e. unfold write_bounds_2d.
    destruct (camera_view_bounds_2d scene cam me) as [[b|]|e'] eqn:E;
      cbn [bind].
    + destruct (negb _); discriminate.
    + intros H. injection H as <-. right. reflexivity.
    + intros H. injection H as <-. left. apply (Hraise _ eq_refl).
Qed.

Ltac qneq := let H := fresh in intro H; vm_compute in H; discriminate H.

Lemma rescale_frame_inv (z : Q) (f f' : Frame) :
  rescale_frame z f = Ok f' ->
  ~ z == 0 /\ ~ vz (frame0 f) == 0 /\ ~ vz (frame1 f) == 0 /\
  ~ vz (frame2 f) == 0 /\
  f' = (let r c := mkVector (vx c / (vz c / z)) (vy c / (vz c / z))
                            (vz c / (vz c / z)) in
        (r (frame0 f), r (frame1 f), r (frame2 f))).
Proof.
  unfold rescale_frame.
  destruct (rescale_corner z (frame0 f)) as [a|] eqn:E0; cbn [bind];
    [|discriminate].
  destruct (rescale_corner z (frame1 f)) as [b|] eqn:E1; cbn [bind];
    [|discriminate].
  destruct (rescale_corner z (frame2 f)) as [c|] eqn:E2; cbn [bind];
    [|discriminate].
  intros H. injection H as <-.
  apply rescale_corner_inv in E0, E1, E2.
  destruct E0 as (Hz & H0 & ->). destruct E1 as (_ & H1 & ->).
  destruct E2 as (_ & H2 & ->). tauto.
Qed.

(** Rescaling a planar frame to the depth [z] multiplies its width and its
    height by [z / depth of the frame]. *)
Lemma rescaled_extent (z : Q) (f f' : Frame) :
  planar_frame f -> rescale_frame z f = Ok f' ->
  frame_width f' == frame_width f * (z / vz (frame1 f)) /\
  frame_height f' == frame_height f * (z / vz (frame1 f)).
Proof.
  intros [P0 P2] H. apply rescale_frame_inv in H.
  destruct H as (Hz & H0 & H1 & H2 & ->).
  destruct f as [[c0 c1] c2]. unfold frame_width, frame_height.
  unfold frame0, frame1, frame2 in *. simpl in *.
  rewrite P0, P2. split; field; split; assumption.
Qed.

Lemma persp_step_frame (persp : bool) (z : Q) (f f' : Frame)
    (lx ly lx' ly' : list Q) :
  persp_step persp z (f, lx, ly) = Ok (f', lx', ly') ->
  f' = f \/ (persp = true /\ ~ z == 0 /\ rescale_frame z f = Ok f').
Proof.
  unfold persp_step. destruct persp.
  - destruct (Qeq_bool z 0) eqn:Ez.
    + intros H. injection H as <- _ _. left. reflexivity.
    + destruct (rescale_frame z f) as [g|] eqn:E; cbn [bind]; [|discriminate].
      intros H. injection H as <- _ _. right.
      apply Qeq_bool_false in Ez. tauto.
  - intros H. injection H as <- _ _. left. reflexivity.
Qed.

Lemma loop_body_ok_inv (scene : Render) (persp : bool) (st : loop_state)
    (v : Vector) (r : ctl loop_state Box.t) :
  loop_body scene persp st v = Ok r ->
  exists f lx ly,
    persp_step persp (- vz v) st = Ok (f, lx, ly) /\
    ~ frame_width f == 0 /\ ~ frame_height f == 0.
Proof.
  unfold loop_body.
  destruct (persp_step persp (- vz v) st) as [[[f lx] ly]|] eqn:E0;
    cbn [bind]; [|discriminate].
  destruct (qdiv (vx v - _) _) as [x|] eqn:E1; cbn [bind]; [|discriminate].
  destruct (qdiv (vy v - _) _) as [y|] eqn:E2; cbn [bind]; [|discriminate].
  intros _. exists f, lx, ly. split; [reflexivity|].
  apply qdiv_inv in E1, E2. unfold frame_width, frame_height. tauto.
Qed.

Lemma loop_body_ok (scene : Render) (persp : bool) (st : loop_state)
    (v : Vector) (f : Frame) (lx ly : list Q) :
  persp_step persp (- vz v) st = Ok (f, lx, ly) ->
  ~ frame_width f == 0 -> ~ frame_height f == 0 ->
  exists b, loop_body scene persp st v = Ok (Return b).
Proof.
  intros E Hw Hh. unfold loop_body. rewrite E. cbn [bind].
  unfold frame_width in Hw. unfold frame_height in Hh.
  rewrite (qdiv_ok _ _ Hw), (qdiv_ok _ _ Hh). cbn [bind].
  destruct (bounds_2d_snoc_ok lx ly
              ((vx v - vx (frame1 f)) / (vx (frame2 f) - vx (frame1 f)))
              ((vy v - vy (frame0 f)) / (vy (frame1 f) - vy (frame0 f))))
    as [[[[a b] c] d] ->].
  cbn [bind]. destruct (render_dims scene). eauto.
Qed.

Lemma Qmult_nonzero (a b : Q) : ~ a == 0 -> ~ b == 0 -> ~ a * b == 0.
Proof.
  intros Ha Hb H. apply Ha.
  assert (E : a == a * b / b) by (field; exact Hb).
  rewrite E, H. unfold Qdiv. ring.
Qed.

(** X11.  With an orthographic camera, or a perspective camera whose frame
    is planar, a view frame of zero width or zero height makes
    camera_view_bounds_2d raise ZeroDivisionError on every mesh that has a
    vertex. *)
Theorem degenerate_frame_raises_zero_division :
  forall (scene : Render) (cam : Camera) (v : Vector) (rest : Mesh),
    frame_width (initial_frame cam) == 0 \/
    frame_height (initial_frame cam) == 0 ->
    cam_ortho cam = true \/ planar_frame (initial_frame cam) ->
    camera_view_bounds_2d scene cam (v :: rest) = Raise ZeroDivisionError.
Proof.
  intros scene cam v rest Hdeg Hkind.
  rewrite camera_view_bounds_2d_first_vertex.
  unfold camera_view_bounds_2d, for_each.
  set (f := initial_frame cam) in *.
  destruct (loop_body scene (negb (cam_ortho cam)) (f, [], []) v)
    as [r|e] eqn:E; cbn [bind].
  - exfalso.
    destruct (loop_body_ok_inv _ _ _ _ _ E) as (f' & lx & ly & Hs & Hw & Hh).
    destruct (persp_step_frame _ _ _ _ _ _ _ _ Hs) as [-> | (Hp & Hz & Hr)].
    + tauto.
    + destruct Hkind as [Ho | Hplanar].
      { rewrite Ho in Hp. discriminate. }
      destruct (rescaled_extent _ _ _ Hplanar Hr) as [Ew Eh].
      destruct Hdeg as [H0 | H0].
      * apply Hw. rewrite Ew, H0. ring.
      * apply Hh. rewrite Eh, H0. ring.
  - rewrite (loop_body_raises _ _ _ _ _ E). reflexivity.
Qed.

Lemma degenerate_frame_raises_zero_division_witness :
  camera_view_bounds_2d (render_640_480 100)
    (mkCamera true (mkVector 0 1 (- 1), mkVector 0 (- 1) (- 1),
                    mkVector 0 (- 1) (- 1), mkVector 0 1 (- 1)))
    two_vertex_mesh = Raise ZeroDivisionError.
Proof.
  apply (degenerate_frame_raises_zero_division (render_640_480 100)
           (mkCamera true (mkVector 0 1 (- 1), mkVector 0 (- 1) (- 1),
                           mkVector 0 (- 1) (- 1), mkVector 0 1 (- 1)))
           (mkVector 0 0 (- 1)) [mkVector (1 # 4) (1 # 4) (- 1)]).
  - left. reflexivity.
  - left. reflexivity.
Defined.

(** ** Geometry of the projection *)

(** X12.  An orthographic camera ignores the depth of the vertex: two
    meshes whose first vertices differ in z only give the same result. *)
Theorem orthographic_camera_ignores_depth :
  forall (scene : Render) (cam : Camera) (x y z z' : Q) (rest rest' : Mesh),
    cam_ortho cam = true ->
    camera_view_bounds_2d scene cam (mkVector x y z :: rest) =
    camera_view_bounds_2d scene cam (mkVector x y z' :: rest').
Proof.
  intros scene cam x y z z' rest rest' Ho.
  rewrite (camera_view_bounds_2d_first_vertex _ _ _ rest).
  rewrite (camera_view_bounds_2d_first_vertex _ _ _ rest').
  unfold camera_view_bounds_2d, for_each, loop_body, persp_step.
  rewrite Ho. reflexivity.
Qed.

Lemma orthographic_camera_ignores_depth_witness :
  camera_view_bounds_2d (render_640_480 100) ortho_camera
    [mkVector (1 # 4) (1 # 4) (- 1)] =
  camera_view_bounds_2d (render_640_480 100) ortho_camera
    [mkVector (1 # 4) (1 # 4) 7; mkVector 0 0 0].
Proof.
  apply (orthographic_camera_ignores_depth (render_640_480 100) ortho_camera
           (1 # 4) (1 # 4) (- 1) 7 [] [mkVector 0 0 0]).
  reflexivity.
Defined.

(** ** normalize *)

(** X14.  normalize raises ZeroDivisionError when the frame width or the
    frame height is zero, whatever the box, and returns a label in every
    other case. *)
Theorem normalize_raises_exactly_on_zero_frame :
  forall (data : tuple4) (frame_width frame_height : Q),
    (frame_width == 0 \/ frame_height == 0 ->
     normalize data frame_width frame_height = Raise ZeroDivisionError) /\
    (~ frame_width == 0 -> ~ frame_height == 0 ->
     exists label, normalize data frame_width frame_height = Ok label).
Proof.
  intros [[[x y] w] h] fw fh. split.
  - intros Hz. unfold normalize, qdiv.
    destruct (Qeq_bool fw 0) eqn:Ew; [reflexivity|]. cbn [bind].
    destruct (Qeq_bool fh 0) eqn:Eh; [reflexivity|]. exfalso.
    qprop. tauto.
  - intros Hw Hh. rewrite normalize_ok by assumption. eauto.
Qed.

(** X15.  normalize depends on the box and the frame only up to a common
    scale: multiplying the pixel box and both frame dimensions by the same
    nonzero factor gives the same label. *)
Theorem normalize_is_scale_invariant :
  forall x y w h fw fh k : Q,
    ~ k == 0 -> ~ fw == 0 -> ~ fh == 0 ->
    exists label label',
      normalize (k * x, k * y, k * w, k * h) (k * fw) (k * fh) = Ok label /\
      normalize (x, y, w, h) fw fh = Ok label' /\
      tuple4_eq label label'.
Proof.
  intros x y w h fw fh k Hk Hw Hh.
  rewrite (normalize_ok _ _ _ _ (k * fw) (k * fh))
    by (apply Qmult_nonzero; assumption).
  rewrite normalize_ok by assumption.
  do 2 eexists. split; [reflexivity|]. split; [reflexivity|].
  simpl. repeat split; field; split; assumption.
Qed.

Lemma normalize_is_scale_invariant_witness :
  exists label label',
    normalize (2 * 100, 2 * 50, 2 * 40, 2 * 20) (2 * 640) (2 * 480)
    = Ok label /\
    normalize (100, 50, 40, 20) 640 480 = Ok label' /\
    tuple4_eq label label'.
Proof.
  apply (normalize_is_scale_invariant 100 50 40 20 640 480 2); qneq.
Defined.

(** X16.  Every label the loop of main emits is determined by the Box
    bounds and the resolution percentage alone: with fac = percentage/100,
    x_center = fac * (min_x + max_x)/2, y_center = fac * (1 - (min_y +
    max_y)/2) (the vertical axis is flipped), width = fac * (max_x - min_x)
    and height = fac * (max_y - min_y); the resolution itself cancels. *)
Theorem emitted_label_in_terms_of_bounds :
  forall (scene : Scene) (me_ob : Mesh) (label : tuple4),
    emitted_label scene me_ob label ->
    exists b,
      camera_view_bounds_2d (render scene) (camera scene) me_ob
      = Ok (Some b) /\
      let fac := inject_Z (resolution_percentage (render scene)) * (1 # 100) in
      tuple4_eq label
        (fac * ((Box.min_x b + Box.max_x b) / 2),
         fac * (1 - (Box.min_y b + Box.max_y b) / 2),
         fac * (Box.max_x b - Box.min_x b),
         fac * (Box.max_y b - Box.min_y b)).
Proof.
  intros scene me_ob label (b & Hb & Hnz & Hn).
  exists b. split; [exact Hb|].
  destruct (nonzero_box_nonzero_resolution _ _ _ _ Hb Hnz) as [Hrx Hry].
  destruct (camera_view_bounds_2d_inv _ _ _ _ Hb) as [_ Hdims].
  unfold render_dims in Hdims. injection Hdims as Hdx Hdy.
  unfold Box.to_tuple in Hn, Hnz.
  destruct (Qeq_bool (Box.width b) 0 || Qeq_bool (Box.height b) 0).
  { exfalso. apply Hnz. repeat split. }
  rewrite normalize_ok in Hn by assumption. injection Hn as <-.
  unfold Box.x, Box.y, Box.width, Box.height. rewrite Hdx, Hdy.
  set (rx := inject_Z (resolution_x (render scene))) in *.
  set (ry := inject_Z (resolution_y (render scene))) in *.
  simpl. repeat split; field; assumption.
Qed.

Lemma zero_depth_label_emitted :
  emitted_label (one_object_scene 100 [zero_depth_vertex]) [zero_depth_vertex]
    ((Box.x zero_depth_box + Box.width zero_depth_box / 2) / 640,
     (Box.y zero_depth_box + Box.height zero_depth_box / 2) / 480,
     Box.width zero_depth_box / 640, Box.height zero_depth_box / 480).
Proof.
  exists zero_depth_box. split; [exact zero_depth_box_returned|]. split.
  - intros (H & _). vm_compute in H. discriminate.
  - vm_compute. reflexivity.
Qed.

Lemma emitted_label_in_terms_of_bounds_witness :
  exists b,
    camera_view_bounds_2d (render_640_480 100) persp_camera
      [zero_depth_vertex] = Ok (Some b) /\
    tuple4_eq
      ((Box.x zero_depth_box + Box.width zero_depth_box / 2) / 640,
       (Box.y zero_depth_box + Box.height zero_depth_box / 2) / 480,
       Box.width zero_depth_box / 640, Box.height zero_depth_box / 480)
      (inject_Z 100 * (1 # 100) * ((Box.min_x b + Box.max_x b) / 2),
       inject_Z 100 * (1 # 100) * (1 - (Box.min_y b + Box.max_y b) / 2),
       inject_Z 100 * (1 # 100) * (Box.max_x b - Box.min_x b),
       inject_Z 100 * (1 # 100) * (Box.max_y b - Box.min_y b)).
Proof.
  exact (emitted_label_in_terms_of_bounds _ _ _ zero_depth_label_emitted).
Defined.

(** ** The label loop *)

Lemma label_object_empty_mesh (float_str : Q -> string) (scene : Scene)
    (all_data : string) :
  label_object float_str scene all_data [] = Raise AttributeError.
Proof. reflexivity. Qed.

Lemma label_object_off_plane (float_str : Q -> string) (scene : Scene)
    (all_data s : string) (v : Vector) (rest : Mesh) :
  cam_ortho (camera scene) = true \/ ~ vz v == 0 ->
  label_object float_str scene all_data (v :: rest) = Ok s -> s = all_data.
Proof.
  intros Hcase. unfold label_object.
  destruct (write_bounds_2d _ _ _) as [r|] eqn:E; cbn [bind]; [|discriminate].
  rewrite (first_vertex_off_plane_never_labelled _ _ _ _ _ Hcase E).
  intros H. injection H as <-. reflexivity.
Qed.

Lemma label_objects_unlabelled (float_str : Q -> string) (scene : Scene)
    (objs : list Mesh) :
  cam_ortho (camera scene) = true \/
  Forall (fun me => forall v rest, me = v :: rest -> ~ vz v == 0) objs ->
  forall all_data s,
    label_objects float_str scene all_data objs = Ok s -> s = all_data.
Proof.
  intros Hcase. induction objs as [|me rest IH]; intros all_data s; simpl.
  - intros H. injection H as <-. reflexivity.
  - destruct (label_object _ _ _ me) as [s1|] eqn:E1; cbn [bind];
      [|discriminate].
    intros H2.
    assert (Hrest : cam_ortho (camera scene) = true \/
                    Forall (fun me => forall v rest, me = v :: rest ->
                                                     ~ vz v == 0) rest).
    { destruct Hcase as [H | H]; [left; exact H|].
      right. inversion H. assumption. }
    rewrite (IH Hrest _ _ H2).
    destruct me as [|v vs]; [discriminate|].
    apply (label_object_off_plane _ _ _ _ _ _) in E1; [exact E1|].
    destruct Hcase as [H | H]; [left; exact H|].
    right. inversion H as [|? ? Hv _]. apply (Hv v vs). reflexivity.
Qed.

(** X17.  Because the loop over the vertices returns at the first one, a
    frame's label text is empty whenever the camera is orthographic, and
    also under a perspective camera when no object's first vertex lies at
    depth zero: in both cases every Box is a single point. *)
Theorem frame_text_is_empty_without_zero_depth_first_vertex :
  forall (float_str : Q -> string) (scene : Scene) (frame_current : Z)
         (name text : string),
    cam_ortho (camera scene) = true \/
    Forall (fun me => forall v rest, me = v :: rest -> ~ vz v == 0)
           (meshes_at scene frame_current) ->
    label_frame float_str scene frame_current = Ok (name, text) ->
    text = EmptyString.
Proof.
  intros float_str scene f name text Hcase. unfold label_frame.
  destruct (label_objects _ _ _ _) as [s|] eqn:E; cbn [bind]; [|discriminate].
  intros H. injection H as _ <-.
  exact (label_objects_unlabelled _ _ _ Hcase _ _ E).
Qed.

Lemma frame_text_is_empty_without_zero_depth_first_vertex_witness :
  label_frame (fun _ => EmptyString) (ortho_scene two_vertex_mesh) 3 =
  Ok ("frame_0003.txt"%string, EmptyString).
Proof.
  assert (H : exists text,
             label_frame (fun _ => EmptyString)
               (ortho_scene two_vertex_mesh) 3 =
             Ok ("frame_0003.txt"%string, text))
    by (eexists; vm_compute; reflexivity).
  destruct H as [text H].
  rewrite H.
  rewrite (frame_text_is_empty_without_zero_depth_first_vertex
             (fun _ => EmptyString) (ortho_scene two_vertex_mesh) 3 _ text
             (or_introl eq_refl) H).
  reflexivity.
Defined.

Lemma label_objects_raises_on_empty_mesh (float_str : Q -> string)
    (scene : Scene) (objs : list Mesh) :
  In [] objs ->
  forall all_data, exists e,
    label_objects float_str scene all_data objs = Raise e.
Proof.
  induction objs as [|me rest IH]; intros Hin all_data; [destruct Hin|].
  simpl. destruct Hin as [-> | Hin].
  - rewrite label_object_empty_mesh. cbn [bind]. eauto.
  - destruct (label_object _ _ _ me) as [s|e]; cbn [bind]; [|eauto].
    apply IH. exact Hin.
Qed.

Lemma label_frames_raises (float_str : Q -> string) (scene : Scene)
    (frames : list Z) (f : Z) :
  In f frames ->
  (exists e, label_frame float_str scene f = Raise e) ->
  exists e, label_frames float_str scene frames = Raise e.
Proof.
  induction frames as [|g rest IH]; intros Hin Hf; [destruct Hin|].
  simpl. destruct Hin as [-> | Hin].
  - destruct Hf as [e ->]. cbn [bind]. eauto.
  - destruct (label_frame _ _ g) as [file|e]; cbn [bind]; [|eauto].
    destruct (IH Hin Hf) as [e ->]. cbn [bind]. eauto.
Qed.

Lemma py_range_In (a b n : Z) : In n (py_range a b) <-> (a <= n < b)%Z.
Proof.
  unfold py_range. rewrite in_map_iff. split.
  - intros (i & <- & Hi). apply in_seq in Hi. lia.
  - intros H. exists (Z.to_nat (n - a)). split; [lia|]. apply in_seq. lia.
Qed.

(** X18.  A labelled object whose mesh has no vertex makes the label step
    raise AttributeError, and the whole label loop of main ends with an
    exception as soon as one frame of the range contains such an object. *)
Theorem empty_mesh_aborts_label_loop :
  forall (float_str : Q -> string) (scene : Scene)
         (frame_start frame_end frame_current : Z),
    (frame_start <= frame_current < frame_end)%Z ->
    In [] (meshes_at scene frame_current) ->
    (forall all_data,
        label_object float_str scene all_data [] = Raise AttributeError) /\
    exists e, main_labels float_str scene frame_start frame_end = Raise e.
Proof.
  intros float_str scene a b f Hf Hin. split; [reflexivity|].
  unfold main_labels. apply (label_frames_raises _ _ _ f).
  - apply py_range_In. exact Hf.
  - unfold label_frame.
    destruct (label_objects_raises_on_empty_mesh float_str scene _ Hin
                EmptyString) as [e ->].
    cbn [bind]. eauto.
Qed.

Lemma empty_mesh_aborts_label_loop_witness :
  exists e,
    main_labels (fun _ => EmptyString) (one_object_scene 100 []) 0 15
    = Raise e.
Proof.
  apply (empty_mesh_aborts_label_loop (fun _ => EmptyString)
           (one_object_scene 100 []) 0 15 4).
  - lia.
  - left. reflexivity.
Defined.

(** ** Names of the label files *)

Lemma string_length_app (a b : string) :
  String.length (a ++ b) = (String.length a + String.length b)%nat.
Proof. induction a as [|c a IH]; simpl; [reflexivity | now rewrite IH]. Qed.

Lemma string_app_inv_head (a b c : string) :
  (a ++ b)%string = (a ++ c)%string -> b = c.
Proof.
  induction a as [|x a IH]; simpl; [trivial|].
  intros H. injection H as H. apply IH. exact H.
Qed.

Lemma string_app_inv_tail (c : string) : forall a b : string,
  (a ++ c)%string = (b ++ c)%string -> a = b.
Proof.
  induction a as [|x a IH]; intros [|y b] H; simpl in H.
  - reflexivity.
  - exfalso. apply (f_equal String.length) in H. simpl in H.
    rewrite string_length_app in H. lia.
  - exfalso. apply (f_equal String.length) in H. simpl in H.
    rewrite string_length_app in H. lia.
  - injection H as -> H. f_equal. apply IH. exact H.
Qed.

Lemma uint_of_zeros_app (k : nat) (s : string) :
  NilEmpty.uint_of_string (zeros k ++ s) =
  option_map (Nat.iter k D0) (NilEmpty.uint_of_string s).
Proof.
  induction k as [|k IH]; simpl.
  - destruct (NilEmpty.uint_of_string s); reflexivity.
  - rewrite IH. destruct (NilEmpty.uint_of_string s); reflexivity.
Qed.

Lemma of_uint_leading_zeros (k : nat) (u : uint) :
  Z.of_uint (Nat.iter k D0 u) = Z.of_uint u.
Proof. induction k as [|k IH]; [reflexivity|]. simpl. exact IH. Qed.

Lemma nilzero_uint_of_zeros_app (k : nat) (c : ascii) (s : string) :
  NilZero.uint_of_string (zeros k ++ String c s) =
  option_map (Nat.iter k D0) (NilEmpty.uint_of_string (String c s)).
Proof.
  rewrite <- uint_of_zeros_app. destruct k; reflexivity.
Qed.

Lemma parse_int_str_int (n : Z) : parse_int (str_int n) = Some n.
Proof.
  unfold parse_int, str_int. rewrite NilZero.isi.
  - simpl. rewrite DecimalZ.of_to. reflexivity.
  - destruct n; simpl; try discriminate.
    intros H. injection H as H. exact (Unsigned.to_uint_nonnil _ H).
  - destruct n; simpl; try discriminate.
    intros H. injection H as H. exact (Unsigned.to_uint_nonnil _ H).
Qed.

(** Padding with [zfill] does not change the integer a text denotes. *)
Lemma parse_int_zfill (width : nat) (s : string) (n : Z) :
  parse_int s = Some n -> parse_int (zfill width s) = Some n.
Proof.
  destruct s as [|c rest]; [discriminate|].
  unfold zfill. set (k := (width - String.length (String c rest))%nat).
  clearbody k. unfold parse_int, NilZero.int_of_string.
  destruct (Ascii.eqb c "-") eqn:Em.
  - rewrite orb_true_r, Em.
    destruct rest as [|r rs]; [discriminate|].
    rewrite nilzero_uint_of_zeros_app.
    change (NilZero.uint_of_string (String r rs))
      with (NilEmpty.uint_of_string (String r rs)).
    destruct (NilEmpty.uint_of_string (String r rs)) as [u|]; [|discriminate].
    simpl. rewrite of_uint_leading_zeros. trivial.
  - rewrite orb_false_r. destruct (Ascii.eqb c "+") eqn:Ep.
    + apply Ascii.eqb_eq in Ep. subst c. simpl.
      destruct (NilEmpty.uint_of_string rest); discriminate.
    + change (NilZero.uint_of_string (String c rest))
        with (NilEmpty.uint_of_string (String c rest)).
      destruct (zeros k ++ String c rest)%string as [|a t] eqn:Ez.
      { destruct k; discriminate. }
      assert (Ea : Ascii.eqb a "-" = false).
      { destruct k; simpl in Ez; injection Ez as <- _; [exact Em|reflexivity]. }
      rewrite Ea, <- Ez, nilzero_uint_of_zeros_app.
      destruct (NilEmpty.uint_of_string (String c rest)) as [u|];
        [|discriminate].
      simpl. rewrite of_uint_leading_zeros. trivial.
Qed.

Lemma label_filename_reads_back (n : Z) :
  parse_int (zfill 4 (str_int n)) = Some n.
Proof. apply parse_int_zfill, parse_int_str_int. Qed.

Lemma label_filename_inj (n m : Z) :
  label_filename n = label_filename m -> n = m.
Proof.
  unfold label_filename. intros H.
  apply string_app_inv_head, string_app_inv_tail in H.
  pose proof (label_filename_reads_back n) as Hn.
  rewrite H, label_filename_reads_back in Hn. congruence.
Qed.

(** X20.  Distinct frame numbers, negative or of any size, give distinct
    label file names, and the frame number can be read back from the padded
    index inside the name. *)
Theorem label_filenames_are_distinct :
  forall n m : Z,
    n <> m ->
    label_filename n <> label_filename m /\
    parse_int (zfill 4 (str_int n)) = Some n /\
    parse_int (zfill 4 (str_int m)) = Some m.
Proof.
  intros n m Hne. split; [|split; apply label_filename_reads_back].
  intros H. apply Hne. apply label_filename_inj. exact H.
Qed.

Lemma label_filenames_are_distinct_witness :
  label_filename 7 <> label_filename 12345 /\
  parse_int (zfill 4 (str_int 7)) = Some 7%Z /\
  parse_int (zfill 4 (str_int 12345)) = Some 12345%Z.
Proof.
  apply (label_filenames_are_distinct 7 12345). lia.
Defined.

Lemma py_range_NoDup (a b : Z) : NoDup (py_range a b).
Proof.
  unfold py_range. generalize (seq_NoDup (Z.to_nat (b - a)) 0).
  generalize (seq 0 (Z.to_nat (b - a))). intros l Hl.
  induction Hl as [|i l Hi Hl IH]; simpl; constructor; [|exact IH].
  rewrite in_map_iff. intros (j & Hj & Hin).
  assert (j = i) by lia. subst j. contradiction.
Qed.

Lemma label_filename_map_NoDup (l : list Z) :
  NoDup l -> NoDup (map label_filename l).
Proof.
  intros Hl. induction Hl as [|n l Hn Hl IH]; simpl; constructor; [|exact IH].
  rewrite in_map_iff. intros (m & Hm & Hin).
  apply label_filename_inj in Hm. subst m. contradiction.
Qed.

(** X21.  When the label loop of main ends without an exception it has
    written exactly max(0, frame_end - frame_start) files, one per frame
    from frame_start up to frame_end - 1 in increasing order, under pairwise
    distinct names; frame_end itself gets no label file. *)
Theorem main_writes_one_file_per_frame_before_frame_end :
  forall (float_str : Q -> string) (scene : Scene)
         (frame_start frame_end : Z) (files : list (string * string)),
    main_labels float_str scene frame_start frame_end = Ok files ->
    List.length files = Z.to_nat (frame_end - frame_start) /\
    map fst files = map label_filename (py_range frame_start frame_end) /\
    (forall n, In n (py_range frame_start frame_end) <->
               (frame_start <= n < frame_end)%Z) /\
    NoDup (map fst files) /\
    ~ In (label_filename frame_end) (map fst files).
Proof.
  intros float_str scene a b files H.
  pose proof (main_labels_names _ _ _ _ _ H) as Hnames.
  split; [|split; [exact Hnames|split; [|split]]].
  - apply (f_equal (@List.length string)) in Hnames.
    rewrite !length_map in Hnames. rewrite Hnames.
    unfold py_range. rewrite length_map, length_seq. reflexivity.
  - intros n. apply py_range_In.
  - rewrite Hnames. apply label_filename_map_NoDup, py_range_NoDup.
  - rewrite Hnames, in_map_iff. intros (n & Hn & Hin).
    apply label_filename_inj in Hn. subst n.
    apply py_range_In in Hin. lia.
Qed.

Lemma main_writes_one_file_per_frame_before_frame_end_witness :
  exists files,
    main_labels (fun _ => EmptyString) (ortho_scene two_vertex_mesh) 2 5
    = Ok files /\
    List.length files = 3%nat /\
    map fst files =
      ["frame_0002.txt"; "frame_0003.txt"; "frame_0004.txt"]%string.
Proof.
  assert (H : main_labels (fun _ => EmptyString)
                (ortho_scene two_vertex_mesh) 2 5 =
              Ok [("frame_0002.txt", EmptyString);
                  ("frame_0003.txt", EmptyString);
                  ("frame_0004.txt", EmptyString)]%string)
    by (vm_compute; reflexivity).
  eexists. split; [exact H|].
  destruct (main_writes_one_file_per_frame_before_frame_end _ _ _ _ _ H)
    as (Hlen & Hnames & _).
  split; [exact Hlen | exact Hnames].
Defined.

(** ** Reading a Box back from its tuple *)

(** X22.  A tuple returned by to_tuple() that is not the all-zero sentinel
    determines the bounds of its Box: min_x = x/dim_x,
    max_x = (x + width)/dim_x, max_y = 1 - y/dim_y and
    min_y = 1 - (y + height)/dim_y; in particular both dims are nonzero. *)
Theorem to_tuple_determines_bounds :
  forall (b : Box.t) (x y w h : Q),
    Box.to_tuple b = (x, y, w, h) ->
    ~ tuple4_eq (x, y, w, h) (0, 0, 0, 0) ->
    ~ Box.dim_x b == 0 /\ ~ Box.dim_y b == 0 /\
    Box.min_x b == x / Box.dim_x b /\
    Box.max_x b == (x + w) / Box.dim_x b /\
    Box.max_y b == 1 - y / Box.dim_y b /\
    Box.min_y b == 1 - (y + h) / Box.dim_y b.
Proof.
  intros b x y w h Ht Hnz.
  unfold Box.to_tuple in Ht.
  destruct (Qeq_bool (Box.width b) 0) eqn:Ew;
    [exfalso; apply Hnz; simpl in Ht; injection Ht as <- <- <- <-;
     repeat split|].
  destruct (Qeq_bool (Box.height b) 0) eqn:Eh;
    [exfalso; apply Hnz; simpl in Ht; injection Ht as <- <- <- <-;
     repeat split|].
  simpl in Ht. injection Ht as <- <- <- <-. qprop.
  unfold Box.width in Ew. unfold Box.height in Eh.
  assert (Hdx : ~ Box.dim_x b == 0).
  { intros H. apply Ew. rewrite H. ring. }
  assert (Hdy : ~ Box.dim_y b == 0).
  { intros H. apply Eh. rewrite H. ring. }
  unfold Box.x, Box.y, Box.width, Box.height.
  repeat split; try assumption; field; assumption.
Qed.

Lemma to_tuple_determines_bounds_witness :
  Box.max_x zero_depth_box ==
  (Box.x zero_depth_box + Box.width zero_depth_box) / Box.dim_x zero_depth_box
  /\
  Box.min_y zero_depth_box ==
  1 - (Box.y zero_depth_box + Box.height zero_depth_box)
      / Box.dim_y zero_depth_box.
Proof.
  destruct (to_tuple_determines_bounds zero_depth_box
              (Box.x zero_depth_box) (Box.y zero_depth_box)
              (Box.width zero_depth_box) (Box.height zero_depth_box))
    as (_ & _ & _ & H1 & _ & H2).
  - reflexivity.
  - intros (H & _). vm_compute in H. discriminate.
  - split; assumption.
Defined.

(** * The degenerate-box rules and the clamping, in explicit terms *)

Lemma clamp_clamped_to_unit (x : Q) : clamped_to_unit x (clamp x 0 1).
Proof.
  split; [apply clamp_below | split; [apply clamp_inside | apply clamp_above]].
Qed.

(** The clamped centre sits on an edge exactly when the midpoint is on or
    beyond it. *)
Lemma in_0_1_clamp (m : Q) :
  in_0_1 (clamp m 0 1) = true <-> m <= 0 \/ 1 <= m.
Proof.
  rewrite in_0_1_true. split.
  - intros H.
    destruct (Qlt_le_dec 0 m) as [H0 | H0]; [|left; exact H0].
    destruct (Qlt_le_dec m 1) as [H1 | H1]; [|right; exact H1].
    exfalso.
    assert (E : clamp m 0 1 == m) by (apply clamp_inside; split; lra).
    destruct H as [H | H]; rewrite E in H; lra.
  - intros [H | H]; [left; apply clamp_below | right; apply clamp_above];
      exact H.
Qed.

Lemma rule_a_clamped (mu mv : Q) :
  rule_a (clamp mu 0 1) (clamp mv 0 1) = true <->
  (mu <= 0 \/ 1 <= mu) /\ (mv <= 0 \/ 1 <= mv).
Proof.
  unfold rule_a. rewrite andb_true_iff, !in_0_1_clamp. reflexivity.
Qed.

(** Closed goals about rational constants. *)
Ltac qconst := cbv; intuition (try discriminate; try congruence).

(** C2.  With min_u, max_u, min_v, max_v the extrema of the accumulated
    coordinates: the bounds are all zero whenever min_u <= 0 and max_u >= 1,
    or min_v <= 0 and max_v >= 1; in particular when min_u = 0 and
    max_u = 1, whatever the v extent; and when none of the three rules
    fires (the midpoints are not both on or beyond an edge, and neither
    extent straddles) each of the four bounds is its own extremum clamped
    to [0,1]: 0 when the extremum is <= 0, 1 when it is >= 1, and the
    extremum itself in between. *)
Theorem straddling_extent_suppressed_else_clamped :
  forall (lx ly : list Q) (min_u max_u min_v max_v : Q),
    py_min lx = Ok min_u -> py_max lx = Ok max_u ->
    py_min ly = Ok min_v -> py_max ly = Ok max_v ->
    let mid_u := (max_u + min_u) / 2 in
    let mid_v := (max_v + min_v) / 2 in
    ((min_u <= 0 /\ 1 <= max_u) \/ (min_v <= 0 /\ 1 <= max_v) ->
     bounds_2d lx ly = Ok (0, 0, 0, 0)) /\
    (min_u == 0 -> max_u == 1 -> bounds_2d lx ly = Ok (0, 0, 0, 0)) /\
    (~ ((mid_u <= 0 \/ 1 <= mid_u) /\ (mid_v <= 0 \/ 1 <= mid_v)) ->
     ~ (min_u <= 0 /\ 1 <= max_u) -> ~ (min_v <= 0 /\ 1 <= max_v) ->
     exists a b c d,
       bounds_2d lx ly = Ok (a, b, c, d) /\
       clamped_to_unit min_u a /\ clamped_to_unit min_v b /\
       clamped_to_unit max_u c /\ clamped_to_unit max_v d /\
       0 <= a <= 1 /\ 0 <= b <= 1 /\ 0 <= c <= 1 /\ 0 <= d <= 1).
Proof.
  intros lx ly min_u max_u min_v max_v H1 H2 H3 H4 mid_u mid_v.
  rewrite (bounds_2d_unfold _ _ _ _ _ _ H1 H2 H3 H4).
  fold mid_u mid_v.
  assert (Hb : (min_u <= 0 /\ 1 <= max_u) \/ (min_v <= 0 /\ 1 <= max_v) ->
               bad_bbox (clamp mid_u 0 1) (clamp mid_v 0 1)
                        min_u max_u min_v max_v = true).
  { intros H. apply bad_bbox_true. right.
    destruct H as [H | H]; [left | right]; apply straddles_true; exact H. }
  split; [|split].
  - intros H. rewrite (Hb H). reflexivity.
  - intros Hmin Hmax. rewrite Hb; [reflexivity|]. left. split; lra.
  - intros Ha Hu Hv.
    destruct (bad_bbox (clamp mid_u 0 1) (clamp mid_v 0 1)
                       min_u max_u min_v max_v) eqn:E.
    + exfalso. apply bad_bbox_true in E.
      rewrite rule_a_clamped, !straddles_true in E. tauto.
    + do 4 eexists. split; [reflexivity|].
      repeat split; try apply clamp_clamped_to_unit; apply clamp_range.
Qed.

Lemma straddling_extent_suppressed_else_clamped_witness :
  bounds_2d [0; 1] [1 # 4; 3 # 4] = Ok (0, 0, 0, 0) /\
  exists a b c d,
    bounds_2d [1 # 2; 13 # 10] [- (1 # 4); 1 # 2] = Ok (a, b, c, d) /\
    a == 1 # 2 /\ b == 0 /\ c == 1 /\ d == 1 # 2.
Proof.
  split.
  - apply (straddling_extent_suppressed_else_clamped
             [0; 1] [1 # 4; 3 # 4] 0 1 (1 # 4) (3 # 4)
             eq_refl eq_refl eq_refl eq_refl); reflexivity.
  - destruct (straddling_extent_suppressed_else_clamped
                [1 # 2; 13 # 10] [- (1 # 4); 1 # 2]
                (1 # 2) (13 # 10) (- (1 # 4)) (1 # 2)
                eq_refl eq_refl eq_refl eq_refl) as (_ & _ & H).
    destruct H as (a & b & c & d & Hb & Ca & Cb & Cc & Cd & _);
      try qconst.
    exists a, b, c, d. split; [exact Hb|].
    destruct Ca as (_ & Ca & _). destruct Cb as (Cb & _).
    destruct Cc as (_ & _ & Cc). destruct Cd as (_ & Cd & _).
    repeat split; [apply Ca | apply Cb | apply Cc | apply Cd]; qconst.
Defined.

(** * Suppressed and emitted objects, with the text spelled out *)




(** * Accumulated coordinates beyond an edge of the frame *)

(** X6.  When the accumulated coordinates (the lists the loop body builds,
    including the 0.5 it records for a zero-depth vertex) lie entirely
    beyond one edge of the frame, the bounds are flat on that axis: both
    bounds are 0 when max <= 0, and both are equal (1, or 0 when a
    degenerate-box rule zeroes the box) when min >= 1; a Box built from
    them has the all-zero to_tuple() at every resolution. *)
Theorem extent_outside_frame_gives_zero_tuple :
  forall (lx ly : list Q) (min_u max_u min_v max_v : Q),
    py_min lx = Ok min_u -> py_max lx = Ok max_u ->
    py_min ly = Ok min_v -> py_max ly = Ok max_v ->
    max_u <= 0 \/ 1 <= min_u \/ max_v <= 0 \/ 1 <= min_v ->
    exists a b c d,
      bounds_2d lx ly = Ok (a, b, c, d) /\
      (max_u <= 0 -> a == 0 /\ c == 0) /\
      (1 <= min_u -> (a == 1 /\ c == 1) \/ (a, b, c, d) = (0, 0, 0, 0)) /\
      (max_v <= 0 -> b == 0 /\ d == 0) /\
      (1 <= min_v -> (b == 1 /\ d == 1) \/ (a, b, c, d) = (0, 0, 0, 0)) /\
      forall dim_x dim_y,
        Box.to_tuple (Box.mk a b c d dim_x dim_y) = (0, 0, 0, 0).
Proof.
  intros lx ly min_u max_u min_v max_v H1 H2 H3 H4 Hout.
  pose proof (py_min_le_py_max _ _ _ H1 H2) as Hu.
  pose proof (py_min_le_py_max _ _ _ H3 H4) as Hv.
  rewrite (bounds_2d_unfold _ _ _ _ _ _ H1 H2 H3 H4).
  destruct (bad_bbox _ _ _ _ _ _).
  - exists 0, 0, 0, 0. split; [reflexivity|].
    repeat split; try reflexivity; right; reflexivity.
  - do 4 eexists. split; [reflexivity|].
    split; [|split; [|split; [|split]]].
    + intros H. split; apply clamp_below; lra.
    + intros H. left. split; apply clamp_above; lra.
    + intros H. split; apply clamp_below; lra.
    + intros H. left. split; apply clamp_above; lra.
    + intros dx dy.
      apply to_tuple_zero_iff. unfold Box.width, Box.height. simpl.
      destruct Hout as [H | [H | [H | H]]]; [left | left | right | right].
      * rewrite (clamp_below max_u), (clamp_below min_u) by lra. ring.
      * rewrite (clamp_above max_u), (clamp_above min_u) by lra. ring.
      * rewrite (clamp_below max_v), (clamp_below min_v) by lra. ring.
      * rewrite (clamp_above max_v), (clamp_above min_v) by lra. ring.
Qed.

Lemma extent_outside_frame_gives_zero_tuple_witness :
  exists a b c d,
    bounds_2d [- (1 # 2); - (1 # 4)] [1 # 4; 1 # 2] = Ok (a, b, c, d) /\
    (a == 0 /\ c == 0) /\
    forall dim_x dim_y,
      Box.to_tuple (Box.mk a b c d dim_x dim_y) = (0, 0, 0, 0).
Proof.
  destruct (extent_outside_frame_gives_zero_tuple
              [- (1 # 2); - (1 # 4)] [1 # 4; 1 # 2]
              (- (1 # 2)) (- (1 # 4)) (1 # 4) (1 # 2)
              eq_refl eq_refl eq_refl eq_refl)
    as (a & b & c & d & Hb & H0 & _ & _ & _ & Ht).
  - left. qconst.
  - exists a, b, c, d. split; [exact Hb|]. split; [apply H0; qconst|exact Ht].
Defined.

(** * Cameras whose frame is not rescaled *)

(** X10.  When the view frame has a nonzero width and height and the frame
    is used as it is (an orthographic camera, or a first vertex at depth
    zero under a perspective camera), camera_view_bounds_2d returns a Box
    for every mesh that has a vertex and write_bounds_2d raises nothing. *)
Theorem unrescaled_frame_never_raises :
  forall (scene : Render) (cam : Camera) (v : Vector) (rest : Mesh),
    ~ frame_width (initial_frame cam) == 0 ->
    ~ frame_height (initial_frame cam) == 0 ->
    cam_ortho cam = true \/ vz v == 0 ->
    (exists b, camera_view_bounds_2d scene cam (v :: rest) = Ok (Some b)) /\
    (exists r, write_bounds_2d scene cam (v :: rest) = Ok r).
Proof.
  intros scene cam v rest Hw Hh Hcase.
  assert (Hb : exists b,
             camera_view_bounds_2d scene cam (v :: rest) = Ok (Some b)).
  { rewrite camera_view_bounds_2d_first_vertex.
    unfold camera_view_bounds_2d, for_each.
    set (f := initial_frame cam) in *.
    assert (Hstep : exists lx ly,
               persp_step (negb (cam_ortho cam)) (- vz v) (f, [], []) =
               Ok (f, lx, ly)).
    { unfold persp_step. destruct (cam_ortho cam) eqn:Eo; simpl negb; cbv iota.
      - exists [], []. reflexivity.
      - destruct Hcase as [H | Hz]; [discriminate|].
        assert (E : Qeq_bool (- vz v) 0 = true).
        { apply Qeq_bool_iff. rewrite Hz. reflexivity. }
        rewrite E. do 2 eexists. reflexivity. }
    destruct Hstep as (lx & ly & Hs).
    destruct (loop_body_ok scene _ _ v _ _ _ Hs Hw Hh) as [b ->].
    cbn [bind]. eauto. }
  split; [exact Hb|]. destruct Hb as [b Hb].
  rewrite (write_bounds_2d_of_box _ _ _ _ Hb).
  destruct (Nat.eqb _ _); eauto.
Qed.

Lemma unrescaled_frame_never_raises_witness :
  (exists b, camera_view_bounds_2d (render_640_480 100) ortho_camera
               two_vertex_mesh = Ok (Some b)) /\
  (exists r, write_bounds_2d (render_640_480 100) ortho_camera
               two_vertex_mesh = Ok r).
Proof.
  apply (unrescaled_frame_never_raises (render_640_480 100) ortho_camera
           (mkVector 0 0 (- 1)) [mkVector (1 # 4) (1 # 4) (- 1)]).
  - qneq.
  - qneq.
  - left. reflexivity.
Defined.

(** * One line per labelled object *)

Lemma label_object_two_cases (float_str : Q -> string) (scene : Scene)
    (all_data : string) (me_ob : Mesh) (s : string) :
  label_object float_str scene all_data me_ob = Ok s ->
  (write_bounds_2d (render scene) (camera scene) me_ob = Ok None /\
   s = all_data) \/
  (exists label,
      emitted_label scene me_ob label /\
      s = (all_data ++ label_line float_str label)%string).
Proof.
  unfold label_object.
  destruct (write_bounds_2d _ _ _) as [[data|]|] eqn:Hw; cbn [bind];
    [| |discriminate].
  - destruct (normalize _ _ _) as [label|] eqn:Hn; cbn [bind]; [|discriminate].
    intros H. injection H as <-. right. exists label. split; [|reflexivity].
    unfold write_bounds_2d in Hw.
    destruct (camera_view_bounds_2d _ _ _) as [[b|]|] eqn:Hb; cbn [bind] in Hw;
      try discriminate.
    destruct (Nat.eqb (count_nonzero (Box.to_tuple b)) 0) eqn:E;
      cbn [negb] in Hw; [discriminate|].
    injection Hw as <-. exists b. repeat split; try assumption.
    intros Hz. apply count_nonzero_zero in Hz. rewrite Hz in E. discriminate.
  - intros H. injection H as <-. left. split; reflexivity.
Qed.

Lemma label_objects_choices (float_str : Q -> string) (scene : Scene)
    (objs : list Mesh) :
  forall all_data s,
    label_objects float_str scene all_data objs = Ok s ->
    exists choices,
      Forall2 (fun me_ob c =>
                 match c with
                 | Some l => emitted_label scene me_ob l
                 | None => write_bounds_2d (render scene) (camera scene) me_ob
                           = Ok None
                 end) objs choices /\
      s = (all_data ++ label_lines float_str (kept_labels choices))%string.
Proof.
  induction objs as [|me_ob rest IH]; intros all_data s; simpl.
  - intros H. injection H as <-. exists []. split; [constructor|].
    simpl. rewrite string_app_empty_r. reflexivity.
  - destruct (label_object _ _ _ _) as [s1|] eqn:H1; cbn [bind];
      [|discriminate].
    intros H2. destruct (IH _ _ H2) as (choices & Hall & ->).
    destruct (label_object_two_cases _ _ _ _ _ H1)
      as [[Hw ->] | (label & He & ->)].
    + exists (None :: choices). split; [constructor; assumption|].
      reflexivity.
    + exists (Some label :: choices). split; [constructor; assumption|].
      simpl. apply string_app_assoc.
Qed.

(** X19.  The text written for a frame is made of one decision per labelled
    object, in object order: an object for which write_bounds_2d returns
    None contributes nothing, and every other object contributes exactly
    one line, "0 x_center y_center width height" with a newline, for the
    label computed from its own Box. *)
Theorem frame_text_has_at_most_one_line_per_object :
  forall (float_str : Q -> string) (scene : Scene) (frame_current : Z)
         (name text : string),
    label_frame float_str scene frame_current = Ok (name, text) ->
    exists choices : list (option tuple4),
      Forall2 (fun me_ob c =>
                 match c with
                 | Some l => emitted_label scene me_ob l
                 | None => write_bounds_2d (render scene) (camera scene) me_ob
                           = Ok None
                 end) (meshes_at scene frame_current) choices /\
      text =
      fold_right
        (fun (l : tuple4) (acc : string) =>
           let '(x_center, y_center, width, height) := l in
           String "0" (String " "
             (float_str x_center ++ String " "
               (float_str y_center ++ String " "
                 (float_str width ++ String " "
                   (float_str height ++
                    String (ascii_of_nat 10) acc)))))%string)
        EmptyString (kept_labels choices).
Proof.
  intros float_str scene f name text. unfold label_frame.
  destruct (label_objects _ _ _ _) as [s|] eqn:H; cbn [bind]; [|discriminate].
  intros E. injection E as _ <-.
  destruct (label_objects_choices _ _ _ _ _ H) as (choices & Hall & ->).
  exists choices. split; [exact Hall|].
  simpl. generalize (kept_labels choices). intros labels.
  induction labels as [|[[[xc yc] w] h] labels IH]; simpl; [reflexivity|].
  rewrite IH. do 2 f_equal.
  rewrite !string_app_assoc. simpl. rewrite !string_app_assoc. simpl.
  rewrite !string_app_assoc. simpl. rewrite !string_app_assoc. reflexivity.
Qed.

Lemma frame_text_has_at_most_one_line_per_object_witness :
  exists choices : list (option tuple4),
    Forall2 (fun me_ob c =>
               match c with
               | Some l =>
                   emitted_label (ortho_scene two_vertex_mesh) me_ob l
               | None =>
                   write_bounds_2d (render_640_480 100) ortho_camera me_ob
                   = Ok None
               end) [two_vertex_mesh] choices /\
    kept_labels choices = [].
Proof.
  destruct (frame_text_has_at_most_one_line_per_object
              (fun _ => EmptyString) (ortho_scene two_vertex_mesh) 0
              "frame_0000.txt"%string EmptyString)
    as (choices & Hall & Ht).
  - vm_compute. reflexivity.
  - exists choices. split; [exact Hall|].
    destruct (kept_labels choices) as [|[[[xc yc] w] h] ls]; [reflexivity|].
    discriminate.
Defined.
